(** * labeled4nothing: unreferenced labels and equations in a LaTeX file

    A shallow embedding of [labeled4nothing.py] and the proofs of the
    properties its specification states about it.

    Layout: Python's [str] primitives the script uses ([Py]), the fragment
    of Python's backtracking [re] engine its patterns need ([Re]), the four
    extraction functions and the orchestration ([L4N]), the vocabulary of
    the statements and the sample inputs ([Doc]), then the lemmas and the
    claims. *)

From Stdlib Require Import String Ascii NArith List Lia.
From stdpp Require Import base option list gmap sets sorting pretty.
From Equations Require Import Equations.

Local Open Scope N_scope.
Local Open Scope nat_scope.

(** ** Python strings

    A Python [str] is a sequence of Unicode code points; a code point is a
    natural number.  String literals of the source are written [py "..."]. *)

Definition char := N.
Definition str := list char.

Definition py (s : string) : str := map N_of_ascii (list_ascii_of_string s).
Arguments py : simpl never.

Module Py.

(** The one-character strings the script mentions. *)
Definition newline : char := 10%N.
Definition comma : char := 44%N.

(** [c.isspace()]: the code points Python's [str] treats as whitespace
    (bidirectional class WS, B or S, or category Zs). *)
Definition isspace (c : char) : bool :=
  ((9 <=? c) && (c <=? 13) || (28 <=? c) && (c <=? 32)
   || (c =? 133) || (c =? 160) || (c =? 5760)
   || (8192 <=? c) && (c <=? 8202)
   || (c =? 8232) || (c =? 8233) || (c =? 8239) || (c =? 8287)
   || (c =? 12288))%N.

(** [s.lstrip()], [s.rstrip()], [s.strip()] *)
Fixpoint lstrip (s : str) : str :=
  match s with
  | c :: s' => if isspace c then lstrip s' else s
  | [] => []
  end.

Definition rstrip (s : str) : str := reverse (lstrip (reverse s)).

Definition strip (s : str) : str := rstrip (lstrip s).

(** [s.split(sep)] for a one-character separator: always at least one
    piece, empty pieces are kept. *)
Fixpoint split (sep : char) (s : str) : list str :=
  match s with
  | [] => [[]]
  | c :: s' =>
      if (c =? sep)%N then [] :: split sep s'
      else match split sep s' with
           | piece :: pieces => (c :: piece) :: pieces
           | [] => [[c]]
           end
  end.

(** [sep.join(pieces)] *)
Fixpoint join (sep : str) (pieces : list str) : str :=
  match pieces with
  | [] => []
  | [p] => p
  | p :: ps => p ++ sep ++ join sep ps
  end.

(** [s.lower()] on the ASCII letters.  The script only tests the result
    against the suffix [.tex]; no other code point lowers to one of
    these four characters. *)
Definition lower_char (c : char) : char :=
  if ((65 <=? c) && (c <=? 90))%N then (c + 32)%N else c.

Definition lower (s : str) : str := map lower_char s.

(** [s.startswith(p)] and [s.endswith(p)] *)
Fixpoint startswith (s p : str) : bool :=
  match p, s with
  | [], _ => true
  | c :: p', d :: s' => (c =? d)%N && startswith s' p'
  | _ :: _, [] => false
  end.

Definition endswith (s p : str) : bool :=
  startswith (reverse s) (reverse p).

(** [c * n] *)
Definition times (c : str) (n : nat) : str := concat (replicate n c).

(** [str(n)] for a non-negative integer *)
Definition of_nat (n : nat) : str := py (pretty n).

(** The order [sorted] uses on strings: lexicographic by code point. *)
Fixpoint le (a b : str) : bool :=
  match a, b with
  | [], _ => true
  | _ :: _, [] => false
  | x :: a', y :: b' => (x <? y)%N || (x =? y)%N && le a' b'
  end.

Definition le_rel (a b : str) : Prop := le a b = true.

#[export] Instance le_rel_dec : RelDecision le_rel.
Proof. intros a b. unfold le_rel. apply _. Defined.

(** [sorted(xs)] *)
Definition sorted (l : list str) : list str := merge_sort le_rel l.

End Py.

(** ** The regular expressions of the script

    Python's [re] is a backtracking matcher: alternatives are tried in
    order, quantifiers are greedy, and a later failure falls back on the
    most recent choice.  [Re.run] is that matcher in continuation-passing
    style for the operators the three patterns of the script are built
    from. *)

Module Re.

Inductive regex :=
| Chr (c : char)              (* a literal character, escaped or not *)
| NotChr (c : char)           (* [^c] *)
| OneOf (cs : list char)      (* [...] *)
| Eps                         (* the empty alternative *)
| Seq (r1 r2 : regex)
| Alt (r1 r2 : regex)         (* r1|r2 *)
| Opt (r : regex)             (* r? *)
| Plus (r : regex)            (* r+ *)
| Group (r : regex).          (* (r), the only capturing group *)

(** What a match leaves: group 1, if set, and the unread input. *)
Definition result := (option str * str)%type.
Definition cont := str → option str → option result.

Definition orelse (a b : option result) : option result :=
  match a with Some x => Some x | None => b end.

(** One more iteration of [r+] first; fewer only when the rest of the
    pattern fails after it.  An iteration that consumes nothing ends the
    loop, as in CPython. *)
Fixpoint plus_loop (step : str → option str → cont → option result)
    (n : nat) (s : str) (cap : option str) (k : cont) : option result :=
  match n with
  | O => None
  | S n' =>
      step s cap (λ s' cap',
        orelse (if decide (length s' < length s)
                then plus_loop step n' s' cap' k else None)
               (k s' cap'))
  end.

Fixpoint run (r : regex) (s : str) (cap : option str) (k : cont)
    : option result :=
  match r with
  | Chr c =>
      match s with
      | d :: s' => if (d =? c)%N then k s' cap else None
      | [] => None
      end
  | NotChr c =>
      match s with
      | d :: s' => if (d =? c)%N then None else k s' cap
      | [] => None
      end
  | OneOf cs =>
      match s with
      | d :: s' => if existsb (N.eqb d) cs then k s' cap else None
      | [] => None
      end
  | Eps => k s cap
  | Seq r1 r2 => run r1 s cap (λ s' cap', run r2 s' cap' k)
  | Alt r1 r2 => orelse (run r1 s cap k) (run r2 s cap k)
  | Opt r1 => orelse (run r1 s cap k) (k s cap)
  | Plus r1 => plus_loop (run r1) (S (length s)) s cap k
  | Group r1 =>
      run r1 s cap (λ s' _, k s' (Some (take (length s - length s') s)))
  end.

(** A literal string as a pattern. *)
Fixpoint lit (l : str) : regex :=
  match l with
  | [] => Eps
  | c :: l' => Seq (Chr c) (lit l')
  end.

(** A match anchored at the start of [s]. *)
Definition match_at (r : regex) (s : str) : option result :=
  run r s None (λ s' cap, Some (cap, s')).

(** [re.search(r, s)]: the leftmost position with a match. *)
Fixpoint search (r : regex) (s : str) : option result :=
  match match_at r s with
  | Some m => Some m
  | None => match s with
            | [] => None
            | _ :: s' => search r s'
            end
  end.

(** [m.group(1)]; the empty string stands for an unset group, as in
    [findall]. *)
Definition group1 (m : result) : str := default [] (fst m).

(** [re.findall(r, s)] for a pattern with one group: group 1 of the
    non-overlapping matches, left to right.  [skip] counts the positions
    inside the previous match, which are not tried. *)
Fixpoint findall_from (r : regex) (skip : nat) (s : str) : list str :=
  match skip with
  | S skip' =>
      match s with
      | [] => []
      | _ :: s' => findall_from r skip' s'
      end
  | O =>
      match match_at r s with
      | Some m =>
          group1 m ::
            match s with
            | [] => []
            | _ :: s' =>
                findall_from r (length s - length (snd m) - 1) s'
            end
      | None =>
          match s with
          | [] => []
          | _ :: s' => findall_from r 0 s'
          end
      end
  end.

Definition findall (r : regex) (s : str) : list str := findall_from r 0 s.

End Re.

(** ** The script *)

Module L4N.

Import Re.

Declare Scope re_scope.
Delimit Scope re_scope with re.
Notation "a ⋅ b" := (Seq a b) (at level 41, right associativity) : re_scope.
Notation "a ∥ b" := (Alt a b) (at level 42, right associativity) : re_scope.

(** The character a one-character literal denotes. *)
Definition ch (s : string) : char :=
  match s with
  | String a _ => N_of_ascii a
  | EmptyString => 0%N
  end.

Arguments ch : simpl never.

(** [r'\\label\{([^}]+)\}'] *)
Definition label_pattern : regex :=
  (lit (py "\label{") ⋅ Group (Plus (NotChr (ch "}"))) ⋅ Chr (ch "}"))%re.

(** [r'\\(?:eq|C|c|auto|name|page|)?[Rr]ef\*?\{([^}]+)\}'] *)
Definition ref_pattern : regex :=
  (Chr (ch "\")
   ⋅ Opt (lit (py "eq") ∥ lit (py "C") ∥ lit (py "c") ∥ lit (py "auto")
          ∥ lit (py "name") ∥ lit (py "page") ∥ Eps)
   ⋅ OneOf [ch "R"; ch "r"] ⋅ lit (py "ef")
   ⋅ Opt (Chr (ch "*"))
   ⋅ Chr (ch "{") ⋅ Group (Plus (NotChr (ch "}"))) ⋅ Chr (ch "}"))%re.

(** [extract_labels(content)] *)
Definition extract_labels (content : str) : gset str :=
  list_to_set (findall label_pattern content).

(** [extract_references(content)]: every match is split at the commas and
    the stripped pieces are added to the set. *)
Definition extract_references (content : str) : gset str :=
  let matches := findall ref_pattern content in
  foldl (λ references match_,
           let refs := Py.strip <$> Py.split Py.comma match_ in
           references ∪ list_to_set refs)
        ∅ matches.

(** *** Numbered equation environments *)

Definition numbered_envs : list str :=
  [py "equation"; py "align"; py "gather"; py "multline"; py "flalign";
   py "alignat"; py "eqnarray"].

(** [r'\\begin\{' + env + r'\}'] and [r'\\end\{' + env + r'\}'] *)
Definition begin_pattern (env : str) : regex :=
  lit (py "\begin{" ++ env ++ py "}").
Definition end_pattern (env : str) : regex :=
  lit (py "\end{" ++ env ++ py "}").

(** A found equation: [(start_line, equation_content, label)]. *)
Definition equation := (nat * str * option str)%type.
Definition start_line (e : equation) : nat := e.1.1.
Definition equation_content (e : equation) : str := e.1.2.
Definition label (e : equation) : option str := e.2.

(** [for env in numbered_envs: ... if re.search(begin_pattern, line)]:
    the first name of the list whose begin-marker occurs in the line. *)
Definition select_env (line : str) : option str :=
  find (λ env, bool_decide (is_Some (search (begin_pattern env) line)))
       numbered_envs.

(** The inner [while j < len(lines)] loop; [rest] is [lines[j:]].  It
    returns the index of the line with the end-marker, the lines gathered
    and the label, or nothing when the lines run out first. *)
Fixpoint collect (env : str) (rest : list str) (j : nat)
    (equation_lines : list str) (label : option str)
    : option (nat * list str * option str) :=
  match rest with
  | [] => None
  | line :: rest' =>
      let equation_lines := equation_lines ++ [line] in
      let label :=
        match search label_pattern line with
        | Some label_match => fst label_match
        | None => label
        end in
      if bool_decide (is_Some (search (end_pattern env) line))
      then Some (j, equation_lines, label)
      else collect env rest' (S j) equation_lines label
  end.

Definition inspect {A} (a : A) : {b | a = b} := exist _ a eq_refl.

(** The outer [while i < len(lines)] loop, from index [i] on. *)
Equations? scan (lines : list str) (i : nat) : list equation
    by wf (length lines - i) lt :=
  scan lines i with inspect (lines !! i) := {
    | exist _ None _ => []
    | exist _ (Some line) Hline with select_env line := {
        | None => scan lines (S i)
        | Some env
            with inspect (collect env (drop i lines) i [] None) := {
            | exist _ None _ => scan lines (S i)
            | exist _ (Some (j, equation_lines, label)) Hj =>
                (S i, Py.strip (Py.join [Py.newline] equation_lines), label)
                  :: scan lines (S j) } } }.
Proof.
  all: apply lookup_lt_Some in Hline.
  2, 3: lia.
  assert (Hend : ∀ rest k acc lbl found,
    collect env rest k acc lbl = Some found →
    k ≤ found.1.1 < k + length rest).
  { induction rest as [|l rest IH]; intros k acc lbl found; simpl; [done|].
    case_bool_decide; [intros [= <-]; simpl; lia|].
    intros Hc. apply IH in Hc. lia. }
  apply Hend in Hj. rewrite length_drop in Hj. simpl in Hj. lia.
Qed.

(** [extract_numbered_equations(content)] *)
Definition extract_numbered_equations (content : str) : list equation :=
  scan (Py.split Py.newline content) 0.

(** *** Files, console and exit status

    What the script touches outside its own memory: the files it opens,
    the lines it prints and the status it ends with.  A path names a text
    file, something [open] fails on (a directory, a file the user may not
    read, bytes that are not UTF-8), or nothing. *)

Inductive node :=
| Text (content : str)
| Unreadable (error : str).      (* [str(e)] of the exception [open]/[read] raises *)

Inductive event :=
| Read (path : str)              (* [open(path, 'r')] and [f.read()] *)
| Write (path : str) (text : str) (* [open(path, 'w')] and all its [f.write] *)
| Print (text : str).            (* [print(text)] *)

Record world := World { files : gmap str node; events : list event }.

Inductive outcome (A : Type) :=
| Return (a : A)
| Raise (error : str)            (* an [Exception], carrying [str(e)] *)
| SysExit (status : nat).        (* [sys.exit(status)] *)
Arguments Return {A} a.
Arguments Raise {A} error.
Arguments SysExit {A} status.

Definition io (A : Type) : Type := world → outcome A * world.

(** Statements in sequence: an exception or [sys.exit] ends the run of
    the statements after it. *)
#[export] Instance io_ret : MRet io := λ A a w, (Return a, w).

#[export] Instance io_bind : MBind io := λ A B f m w,
  match m w with
  | (Return a, w') => f a w'
  | (Raise e, w') => (Raise e, w')
  | (SysExit n, w') => (SysExit n, w')
  end.

(** [try: body except Exception as e: handler(e)]; [SystemExit] is not an
    [Exception] and passes through. *)
Definition try_except {A} (body : io A) (handler : str → io A) : io A :=
  λ w, match body w with
       | (Raise e, w') => handler e w'
       | r => r
       end.

Definition log (e : event) (w : world) : world :=
  World (files w) (events w ++ [e]).

Definition print (text : str) : io unit := λ w, (Return (), log (Print text) w).

Definition sys_exit {A} (status : nat) : io A := λ w, (SysExit status, w).

Definition when (b : bool) (m : io unit) : io unit := if b then m else mret ().

Fixpoint for_each {A} (l : list A) (body : A → io unit) : io unit :=
  match l with
  | [] => mret ()
  | x :: l' => body x ;; for_each l' body
  end.

(** [os.path.exists(path)] *)
Definition path_exists (path : str) : io bool :=
  λ w, (Return (bool_decide (is_Some (files w !! path))), w).

Section Script.

(** Library behaviour the script relies on and does not define:
    [str(Path(p).with_suffix('.txt'))], and the text of the error
    [open] raises for a path that names nothing. *)
Variable with_suffix_txt : str → str.
Variable no_such_file : str → str.

(** [with open(path, 'r', encoding='utf-8') as f: content = f.read()] *)
Definition read_text (path : str) : io str :=
  λ w, let w' := log (Read path) w in
       match files w !! path with
       | Some (Text content) => (Return content, w')
       | Some (Unreadable error) => (Raise error, w')
       | None => (Raise (no_such_file path), w')
       end.

(** [with open(path, 'w', encoding='utf-8') as f:] and the writes in
    its body, [text] being their concatenation. *)
Definition write_text (path : str) (text : str) : io unit :=
  λ w, match files w !! path with
       | Some (Unreadable error) => (Raise error, w)
       | _ => (Return (),
               World (<[path := Text text]> (files w))
                     (events w ++ [Write path text]))
       end.

(** [find_unreferenced_labels(tex_file_path)] *)
Definition find_unreferenced_labels (tex_file_path : str) : io (list str) :=
  content ← read_text tex_file_path;
  let labels := extract_labels content in
  let references := extract_references content in
  let unreferenced := labels ∖ references in
  mret (Py.sorted (elements unreferenced)).

(** The loop of [find_unreferenced_equations] over the found equations. *)
Definition keep_unreferenced (references : gset str)
    (equations : list equation) : list (nat * str) :=
  foldl (λ unreferenced_equations '(line_num, eq_content, label),
           if match label with
              | None => true
              | Some l => bool_decide (l ∉ references)
              end
           then unreferenced_equations ++ [(line_num, eq_content)]
           else unreferenced_equations)
        [] equations.

(** [find_unreferenced_equations(tex_file_path)] *)
Definition find_unreferenced_equations (tex_file_path : str)
    : io (list (nat * str)) :=
  content ← read_text tex_file_path;
  let equations := extract_numbered_equations content in
  let references := extract_references content in
  mret (keep_unreferenced references equations).

Definition ln (s : str) : str := s ++ [Py.newline].

(** The text the [f.write] calls of [main] add up to. *)
Definition report (unreferenced_labels : list str)
    (unreferenced_equations : list (nat * str)) : str :=
  ln (Py.times (py "=") 80)
  ++ ln (py "UNREFERENCED LABELS")
  ++ ln (ln (Py.times (py "=") 80))
  ++ (match unreferenced_labels with
      | _ :: _ =>
          concat ((λ label, ln (py "  " ++ label)) <$> unreferenced_labels)
          ++ ln []
          ++ ln (py "Total: " ++ Py.of_nat (length unreferenced_labels)
                 ++ py " unreferenced label(s)")
      | [] => ln (py "No unreferenced labels found.")
      end)
  ++ [Py.newline] ++ ln (Py.times (py "=") 80)
  ++ ln (py "UNREFERENCED NUMBERED EQUATIONS")
  ++ ln (ln (Py.times (py "=") 80))
  ++ (match unreferenced_equations with
      | _ :: _ =>
          concat (imap (λ idx '(line_num, eq_content),
                    ln (py "Equation #" ++ Py.of_nat (S idx)
                        ++ py " at line " ++ Py.of_nat line_num ++ py ":")
                    ++ ln (Py.times (py "-") 80)
                    ++ ln eq_content
                    ++ ln (ln (Py.times (py "-") 80)))
                  unreferenced_equations)
          ++ ln (py "Total: " ++ Py.of_nat (length unreferenced_equations)
                 ++ py " unreferenced equation(s)")
      | [] => ln (py "No unreferenced equations found.")
      end).

(** [main()], with [sys.argv] as its argument. *)
Definition main (argv : list str) : io unit :=
  match argv with
  | [_; tex_file_path] =>
      found ← path_exists tex_file_path;
      when (negb found)
        (print (py "Error: File '" ++ tex_file_path ++ py "' not found.") ;;
         sys_exit 1) ;;
      when (negb (Py.endswith (Py.lower tex_file_path) (py ".tex")))
        (print (py "Warning: Input file does not have a .tex extension.")) ;;
      '(unreferenced_labels, unreferenced_equations) ←
        try_except
          (unreferenced_labels ← find_unreferenced_labels tex_file_path;
           unreferenced_equations ← find_unreferenced_equations tex_file_path;
           mret (unreferenced_labels, unreferenced_equations))
          (λ e, print (py "Error processing file: " ++ e) ;; sys_exit 1);
      let output_file_path := with_suffix_txt tex_file_path in
      write_text output_file_path
        (report unreferenced_labels unreferenced_equations) ;;
      print (py "Processed: " ++ tex_file_path) ;;
      print (py "Output written to: " ++ output_file_path) ;;
      print (Py.newline :: py "Summary:") ;;
      print (py "  - " ++ Py.of_nat (length unreferenced_labels)
             ++ py " unreferenced label(s)") ;;
      print (py "  - " ++ Py.of_nat (length unreferenced_equations)
             ++ py " unreferenced equation(s)") ;;
      when (bool_decide (unreferenced_labels ≠ []))
        (print (Py.newline :: py "Unreferenced labels:") ;;
         for_each unreferenced_labels (λ label, print (py "  - " ++ label))) ;;
      when (bool_decide (unreferenced_equations ≠ []))
        (print (Py.newline :: py "Unreferenced equations at lines:") ;;
         for_each unreferenced_equations
           (λ '(line_num, _), print (py "  - Line " ++ Py.of_nat line_num)))
  | _ =>
      print (py "Usage: python labeled4nothing.py <input.tex>") ;;
      sys_exit 1
  end.

(** The status the process ends with: 0 when [main] returns, the
    argument of [sys.exit], 1 for an exception nobody caught. *)
Definition exit_status {A} (o : outcome A) : nat :=
  match o with
  | Return _ => 0
  | Raise _ => 1
  | SysExit n => n
  end.

End Script.

End L4N.


Import L4N.

(** * Vocabulary of the statements *)

Module Doc.

Import Re.

(** [([^}]+)\}], the tail the label and the reference pattern share: the
    argument runs up to the first closing brace and is not empty. *)
Definition argument : regex :=
  (Group (Plus (NotChr (ch "}"))) ⋅ Chr (ch "}"))%re.

(** Naive brace matching, as the patterns do it: [open_after b p] tells
    whether a brace is open after reading [p], [b] telling whether one was
    open before.  An opening brace opens, a closing brace closes. *)
Fixpoint open_after (b : bool) (p : str) : bool :=
  match p with
  | [] => b
  | c :: p' =>
      open_after (if (c =? ch "{")%N then true
                  else if (c =? ch "}")%N then false else b) p'
  end.

(** No brace is left open at the end of [p]: the text after [p] is not
    inside the argument of a command that started in [p]. *)
Definition closed (p : str) : Prop := open_after false p = false.

(** Where the matcher stands in a text [p] that is followed by a
    backslash: at a position where a match may start, after the command
    name, or inside a brace that [p] closes. *)
Inductive position := Start | Outside | Inside.

Definition at_position (x : position) (p : str) : Prop :=
  match x with
  | Start => p ≠ [] ∧ closed p
  | Outside => closed p
  | Inside => open_after true p = false
  end.

Definition position_eqb (x y : position) : bool :=
  match x, y with
  | Start, Start | Outside, Outside | Inside, Inside => true
  | _, _ => false
  end.

Definition plain (c : char) : bool :=
  negb ((c =? ch "\")%N || (c =? ch "{")%N || (c =? ch "}")%N).

(** The position a pattern leaves the matcher at when it starts at [x],
    for the patterns that never read the backslash after [p]. *)
Fixpoint flow (r : regex) (x : position) : option position :=
  match r with
  | Chr c =>
      if (c =? ch "\")%N
      then match x with Start => Some Outside | _ => None end
      else if (c =? ch "{")%N then Some Inside
      else if (c =? ch "}")%N then Some Outside
      else match x with Start => Some Outside | _ => Some x end
  | NotChr c =>
      if (c =? ch "}")%N
      then match x with Inside => Some Inside | _ => None end
      else None
  | OneOf cs =>
      if forallb plain cs
      then match x with Start => Some Outside | _ => Some x end
      else None
  | Eps => Some x
  | Seq r1 r2 => flow r1 x ≫= flow r2
  | Alt r1 r2 =>
      match flow r1 x, flow r2 x with
      | Some y1, Some y2 => if position_eqb y1 y2 then Some y1 else None
      | _, _ => None
      end
  | Opt r1 | Plus r1 =>
      match flow r1 x with
      | Some y => if position_eqb y x then Some x else None
      | None => None
      end
  | Group r1 => flow r1 x
  end.

(** The answer of the matcher on a text [p], with the text [s] that follows
    [p] put back behind what it left unread. *)
Definition extend_by (s : str) (o : option result) : option result :=
  (λ m, (m.1, m.2 ++ s)) <$> o.

(** [k], run on [p ++ s], answers as [k'] does on [p] alone, wherever the
    matcher stands at [x] in [p]. *)
Definition agree_on (s : str) (x : position) (k k' : cont) : Prop :=
  ∀ p cap, at_position x p → k (p ++ s) cap = extend_by s (k' p cap).

(** The command names the reference pattern accepts: an optional prefix,
    [Ref] or [ref], an optional star. *)
Definition ref_commands : list str :=
  prefix ← [py "eq"; py "C"; py "c"; py "auto"; py "name"; py "page"; []];
  r ← [py "R"; py "r"];
  star ← [[]; py "*"];
  [prefix ++ r ++ py "ef" ++ star].

(** The reference pattern up to and including the opening brace, run
    with [k] for what follows. *)
Definition run_ref_head (s : str) (cap : option str) (k : cont)
    : option result :=
  run (Chr (ch "\")) s cap (λ s1 c1,
    run (Opt (lit (py "eq") ∥ lit (py "C") ∥ lit (py "c") ∥ lit (py "auto")
              ∥ lit (py "name") ∥ lit (py "page") ∥ Eps)%re) s1 c1 (λ s2 c2,
      run (OneOf [ch "R"; ch "r"]) s2 c2 (λ s3 c3,
        run (lit (py "ef")) s3 c3 (λ s4 c4,
          run (Opt (Chr (ch "*"))) s4 c4 (λ s5 c5,
            run (Chr (ch "{")) s5 c5 k))))).

(** *** Equations in the lines of a text *)

Definition has_begin (env line : str) : Prop :=
  is_Some (search (begin_pattern env) line).
Definition has_end (env line : str) : Prop :=
  is_Some (search (end_pattern env) line).

(** [lines[i : j + 1]] *)
Definition slice (lines : list str) (i j : nat) : list str :=
  take (S j - i) (drop i lines).

(** The leftmost label declaration of a line, if it has one. *)
Definition declared_label (line : str) : option str :=
  search label_pattern line ≫= fst.

(** The label of the first, and of the last, line of a span that
    declares one. *)
Definition first_label (span : list str) : option str :=
  head (omap declared_label span).
Definition last_label (span : list str) : option str :=
  last (omap declared_label span).

(** Line [j] is the first line from [i] on with the end-marker of [env]. *)
Definition closes (lines : list str) (env : str) (i j : nat) : Prop :=
  i ≤ j ∧ (∃ l, lines !! j = Some l ∧ has_end env l)
  ∧ ∀ k l, i ≤ k < j → lines !! k = Some l → ¬ has_end env l.

(** An equation as [find_unreferenced_equations] lists it. *)
Definition listed (e : equation) : nat * str :=
  (start_line e, equation_content e).

(** An equation without a label, or with a label nothing refers to. *)
Definition unreferenced (references : gset str) (e : equation) : Prop :=
  match label e with
  | None => True
  | Some l => l ∉ references
  end.

#[export] Instance unreferenced_dec references e :
  Decision (unreferenced references e).
Proof. unfold unreferenced. destruct (label e); apply _. Defined.

(** *** Traces *)

(** The paths read, in order. *)
Definition reads (evs : list event) : list str :=
  omap (λ e, match e with Read path => Some path | _ => None end) evs.

(** The files written, in order. *)
Definition writes (evs : list event) : list (str * str) :=
  omap (λ e, match e with Write path text => Some (path, text) | _ => None end)
       evs.

Definition is_print (e : event) : Prop := ∃ text, e = Print text.

(** A piece of the script that only prints. *)
Definition prints_only (m : io unit) : Prop :=
  ∀ w, ∃ lines, Forall is_print lines
                ∧ m w = (Return (), World (files w) (events w ++ lines)).

(** *** Sample inputs *)

Definition nl : str := [Py.newline].

(** A label padded with blanks, cited with the same padding. *)
Definition padded_label : str := py "\label{ a }\ref{ a }".

(** One command citing two labels. *)
Definition two_references : str := py "see \Cref{a, b}.".

(** A file system holding one text file, and a script name. *)
Definition one_file (path content : str) : world :=
  World {[ path := Text content ]} [].
Definition script : str := py "labeled4nothing.py".

(** Stand-ins for the two library functions the script calls. *)
Definition append_txt (path : str) : str := path ++ py ".txt".
Definition errno2 (path : str) : str :=
  py "[Errno 2] No such file or directory: '" ++ path ++ py "'".

(** What a run added to the trace. *)
Definition new_events (w w' : world) : list event :=
  drop (length (events w)) (events w').

(** "The orchestration reads the input file exactly once." *)
Definition reads_once (with_suffix_txt no_such_file : str → str)
    (prog path : str) (w : world) : Prop :=
  reads (new_events w (main with_suffix_txt no_such_file [prog; path] w).2)
  = [path].

(** *** Markers and spans *)

(** [token] occurs in [line]. *)
Definition occurs (token line : str) : Prop := ∃ a c, line = a ++ token ++ c.

Definition begin_marker (env : str) : str := py "\begin{" ++ env ++ py "}".
Definition end_marker (env : str) : str := py "\end{" ++ env ++ py "}".
Definition starred_marker (env : str) : str := py "\begin{" ++ env ++ py "*}".

(** The lines an equation of a text spans: from the line it starts at to
    the first line from there on with the end-marker of the environment
    chosen at the start. *)
Definition spans (content : str) (e : equation) (span : list str) : Prop :=
  ∃ i j line env,
    start_line e = S i
    ∧ Py.split Py.newline content !! i = Some line
    ∧ select_env line = Some env
    ∧ closes (Py.split Py.newline content) env i j
    ∧ span = slice (Py.split Py.newline content) i j.

(** All label declarations of a span, line by line, left to right. *)
Definition declarations (span : list str) : list str :=
  concat (findall label_pattern <$> span).


(** An [align] with a label on each of its two rows. *)
Definition two_labels : str :=
  py "\begin{align}" ++ nl ++ py "a &= b \label{x} \\" ++ nl
  ++ py "c &= d \label{y}" ++ nl ++ py "\end{align}".

(** An equation that is never closed. *)
Definition unterminated : str :=
  py "\begin{equation}" ++ nl ++ py "x = 1 \label{eq:x}".

(** A starred environment with a label inside. *)
Definition starred_only : str :=
  py "\begin{equation*}" ++ nl ++ py "x = 1 \label{eq:x}" ++ nl
  ++ py "\end{equation*}".

(** A labelled equation, an equation without label, and a reference. *)
Definition three_equations : str :=
  py "\begin{equation}\label{p}\end{equation}" ++ nl
  ++ py "\begin{gather} x \end{gather}" ++ nl
  ++ py "\begin{align}\label{q}\end{align} by \eqref{q}".


(** An end-marker, then a begin-marker that nothing closes. *)
Definition end_before_begin : str := py "\end{equation} \begin{equation}".

(** [line_of pre]: the index of the line a text continues on after [pre]. *)
Definition line_of (pre : str) : nat :=
  length (filter (λ c, c = Py.newline) pre).

(** *** More sample inputs *)

(** A file system holding one entry. *)
Definition one_node (path : str) (n : node) : world := World {[ path := n ]} [].

(** What [open] says of a directory. *)
Definition is_a_directory : str := py "[Errno 21] Is a directory: 'figures'".

(** The usage line. *)
Definition usage : str := py "Usage: python labeled4nothing.py <input.tex>".

(** The warning for a name that does not end in [.tex]. *)
Definition extension_warning : str :=
  py "Warning: Input file does not have a .tex extension.".

(** The two lists a run on a text computes, and its report. *)
Definition unreferenced_labels_of (content : str) : list str :=
  Py.sorted (elements (extract_labels content ∖ extract_references content)).
Definition unreferenced_equations_of (content : str) : list (nat * str) :=
  keep_unreferenced (extract_references content)
                    (extract_numbered_equations content).
Definition report_of (content : str) : str :=
  report (unreferenced_labels_of content) (unreferenced_equations_of content).

End Doc.

Import Doc.

(** * Properties *)

(** ** The primitives on samples

    The values are those CPython returns for the same arguments. *)

Example strip_sample :
  Py.strip [28; 32; 97; 133; 160; 8195; 8203]%N = [97; 133; 160; 8195; 8203]%N.
Proof. reflexivity. Qed.

Example split_sample :
  Py.split Py.comma (py "a,,b") = [py "a"; []; py "b"]
  ∧ Py.split Py.comma [] = [[]]
  ∧ Py.split Py.newline (py "a" ++ nl ++ py "b" ++ nl) = [py "a"; py "b"; []].
Proof. by vm_compute. Qed.

Example sorted_sample :
  Py.sorted [py "b"; py "a"; py "B"; py "aa"; []]
  = [[]; py "B"; py "a"; py "aa"; py "b"].
Proof. by vm_compute. Qed.

Example findall_label_sample :
  Re.findall label_pattern (py "a \label{x} b \label{y}\label{} \label{z")
  = [py "x"; py "y"].
Proof. by vm_compute. Qed.

Example findall_label_swallowed :
  Re.findall label_pattern (py "\label{%\label{x}") = [py "%\label{x"].
Proof. by vm_compute. Qed.

Example findall_ref_sample :
  Re.findall ref_pattern
    (py "a \ref{x} b \Cref{y, z}\eqref*{ q } \pageRef{w} \xref{no} \autoref{,} \eqpageref{t} \ref**{u} \Ref{v}")
  = [py "x"; py "y, z"; py " q "; py "w"; py ","; py "v"].
Proof. by vm_compute. Qed.

Example search_begin_sample :
  Re.search (begin_pattern (py "align")) (py "\begin{align*}") = None
  ∧ Re.search (begin_pattern (py "align")) (py "\begin{alignat}") = None
  ∧ is_Some (Re.search (begin_pattern (py "align")) (py "x \begin{align} y")).
Proof. vm_compute. eauto. Qed.

Example extract_two_labels :
  extract_numbered_equations two_labels = [(1, two_labels, Some (py "y"))].
Proof. by vm_compute. Qed.

Example extract_three_equations :
  extract_numbered_equations three_equations
  = [(1, py "\begin{equation}\label{p}\end{equation}", Some (py "p"));
     (2, py "\begin{gather} x \end{gather}", None);
     (3, py "\begin{align}\label{q}\end{align} by \eqref{q}", Some (py "q"))].
Proof. by vm_compute. Qed.

(** ** Stripping *)

Section Strip.

Lemma lstrip_suffix s : Py.lstrip s `suffix_of` s.
Proof.
  induction s as [|c s IH]; simpl; [done|].
  destruct (Py.isspace c); [by apply suffix_cons_r | done].
Qed.

Lemma lstrip_head s c : head (Py.lstrip s) = Some c → Py.isspace c = false.
Proof.
  induction s as [|d s IH]; simpl; [done|].
  destruct (Py.isspace d) eqn:Hd; [done|]. by intros [= <-].
Qed.

Lemma last_suffix (s t : str) c : s `suffix_of` t → last s = Some c → last t = Some c.
Proof. intros [u ->] Hs. rewrite last_app, Hs. done. Qed.

(** What [strip] returns neither starts nor ends with whitespace. *)
Lemma strip_head s c : head (Py.strip s) = Some c → Py.isspace c = false.
Proof.
  unfold Py.strip, Py.rstrip. rewrite head_reverse. intros Hl.
  apply (last_suffix _ _ _ (lstrip_suffix _)) in Hl.
  rewrite last_reverse in Hl. by apply lstrip_head in Hl.
Qed.

Lemma strip_last s c : last (Py.strip s) = Some c → Py.isspace c = false.
Proof.
  unfold Py.strip, Py.rstrip. rewrite last_reverse. apply lstrip_head.
Qed.

End Strip.

(** ** The matcher *)

Section Matcher.

Import Re.

(** A literal matches exactly the strings that start with it. *)
Lemma run_lit_app l t cap k : run (lit l) (l ++ t) cap k = k t cap.
Proof.
  induction l as [|c l IH]; simpl; [done|]. by rewrite N.eqb_refl.
Qed.

Lemma run_lit_inv l s cap k m :
  run (lit l) s cap k = Some m → ∃ t, s = l ++ t ∧ k t cap = Some m.
Proof.
  revert s. induction l as [|c l IH]; intros s; simpl.
  - intros Hk. by exists s.
  - destruct s as [|d s]; [done|].
    destruct (N.eqb_spec d c) as [->|]; [|done].
    intros (t & -> & Hk)%IH. by exists t.
Qed.

(** [re.search] with a literal pattern finds the lines the literal occurs
    in. *)
Lemma search_lit l s :
  is_Some (search (lit l) s) ↔ ∃ a b, s = a ++ l ++ b.
Proof.
  split.
  - induction s as [|c s IH]; simpl; unfold match_at.
    + destruct (run _ _ _ _) eqn:Hr; [|by intros [? ?]].
      apply run_lit_inv in Hr as (t & -> & _). intros _. by exists [], t.
    + destruct (run _ _ _ _) eqn:Hr.
      * apply run_lit_inv in Hr as (t & -> & _). intros _. by exists [], t.
      * intros (a & b & ->)%IH. by exists (c :: a), b.
  - intros (a & b & ->). induction a as [|c a IH]; simpl.
    + assert (Hm : match_at (lit l) (l ++ b) = Some (None, b))
        by apply run_lit_app.
      destruct (l ++ b); simpl; by rewrite Hm.
    + by destruct (match_at _ _).
Qed.

(** Where [search] finds its match: at the leftmost position that has
    one. *)
Lemma search_leftmost r s m :
  search r s = Some m →
  ∃ a b, s = a ++ b ∧ match_at r b = Some m
         ∧ ∀ a1 a2, a = a1 ++ a2 → a2 ≠ [] → match_at r (a2 ++ b) = None.
Proof.
  induction s as [|c s IH]; simpl.
  - destruct (match_at r []) eqn:Hm; [|done]. intros [= ->].
    exists [], []. split_and!; [done..|].
    intros a1 a2 Ha. by destruct a1, a2.
  - destruct (match_at r (c :: s)) eqn:Hm.
    + intros [= ->]. exists [], (c :: s). split_and!; [done..|].
      intros a1 a2 Ha. by destruct a1, a2.
    + intros (a & b & -> & Hb & Hleft)%IH.
      exists (c :: a), b. split_and!; [done..|].
      intros [|d a1] a2; simpl.
      * intros <- _. done.
      * intros [= _ ->]. by apply (Hleft a1).
Qed.

(** The matcher answers only through its continuation. *)
Lemma plus_loop_inv step n s cap k m :
  (∀ s cap k m, step s cap k = Some m → ∃ s' cap', k s' cap' = Some m) →
  plus_loop step n s cap k = Some m → ∃ s' cap', k s' cap' = Some m.
Proof.
  intros Hstep. revert s cap. induction n as [|n IH]; intros s cap; simpl; [done|].
  intros (s' & cap' & Hk)%Hstep.
  destruct (decide _); simpl in Hk; [|by eauto].
  destruct (plus_loop _ _ _ _ _) eqn:Hl; simpl in Hk; [|by eauto].
  injection Hk as ->. by eapply IH.
Qed.

Lemma run_inv r s cap k m :
  run r s cap k = Some m → ∃ s' cap', k s' cap' = Some m.
Proof.
  revert s cap k m. induction r; intros s cap k m; cbn [run].
  - destruct s as [|d s]; [done|]. destruct (_ =? _)%N; [|done]. eauto.
  - destruct s as [|d s]; [done|]. destruct (_ =? _)%N; [done|]. eauto.
  - destruct s as [|d s]; [done|]. destruct (existsb _ _); [|done]. eauto.
  - eauto.
  - intros (s1 & c1 & H1)%IHr1. by eapply IHr2.
  - destruct (run r1 _ _ _) eqn:H1; simpl.
    + intros [= <-]. by eapply IHr1.
    + apply IHr2.
  - destruct (run r _ _ _) eqn:H1; simpl.
    + intros [= <-]. by eapply IHr.
    + eauto.
  - apply plus_loop_inv. intros ????. apply IHr.
  - intros (s1 & c1 & H1)%IHr. eauto.
Qed.

(** A group that matched is set. *)
Lemma run_group_inv r s cap k m :
  run (Group r) s cap k = Some m → ∃ s' g, k s' (Some g) = Some m.
Proof. simpl. intros (s1 & c1 & H1)%run_inv. eauto. Qed.

Lemma plus_not_char (cb : char) x rest n cap (k : cont) :
  x ≠ [] → cb ∉ x → length x ≤ n →
  (∀ t c, head t ≠ Some cb → k t c = None) →
  plus_loop (run (NotChr cb)) n (x ++ cb :: rest) cap k = k (cb :: rest) cap.
Proof.
  intros Hx Hnot Hn Hk. revert x Hx Hnot Hn.
  induction n as [|n IH]; intros [|d x] Hx Hnot Hn; simpl in *; try done; [lia|].
  apply not_elem_of_cons in Hnot as [Hd Hnot].
  destruct (N.eqb_spec d cb) as [->|_]; [done|].
  rewrite decide_True by lia.
  destruct x as [|e x].
  - simpl. destruct n; simpl; [done|]. by rewrite N.eqb_refl.
  - rewrite IH; [|done|done|lia].
    destruct (k (cb :: rest) cap) eqn:Hkr; simpl; [done|].
    apply Hk. simpl. intros [= ->]. apply Hnot. left.
Qed.

Lemma run_argument x rest cap k :
  x ≠ [] → ch "}" ∉ x →
  run argument (x ++ ch "}" :: rest) cap k = k rest (Some x).
Proof.
  intros Hx Hnot.
  change (run argument ?s cap k) with
    (plus_loop (run (NotChr (ch "}"))) (S (length s)) s cap
       (λ s' _, run (Chr (ch "}")) s' (Some (take (length s - length s') s)) k)).
  rewrite plus_not_char; [|done|done|rewrite length_app; lia|].
  - cbn [run]. rewrite N.eqb_refl. f_equal. f_equal.
    rewrite length_app. simpl.
    replace (_ - _) with (length x) by lia. by rewrite take_app_length.
  - intros [|d t] c Hd; [done|]. simpl in *.
    destruct (N.eqb_spec d (ch "}")) as [->|]; done.
Qed.

End Matcher.

(** ** Matches do not reach past a closed text

    When a text [p] leaves no brace open and a backslash follows it, a match
    that starts in [p] ends in [p]: the matcher behaves on [p ++ s] as it
    does on [p] alone. *)

Section Locality.

Import Re.

Variable s0 : str.
Let s : str := ch "\" :: s0.
Let extend := extend_by s.
Let agree := agree_on s.

Lemma extend_orelse a b : extend (orelse a b) = orelse (extend a) (extend b).
Proof. by destruct a. Qed.

Lemma open_after_mono p : open_after true p = false → open_after false p = false.
Proof.
  induction p as [|c p IH]; simpl; [done|].
  destruct (_ =? _)%N; [done|]. by destruct (_ =? _)%N.
Qed.

Lemma closed_tail c p : closed (c :: p) → closed p.
Proof.
  unfold closed. simpl.
  destruct (_ =? _)%N; [apply open_after_mono|]. by destruct (_ =? _)%N.
Qed.

Lemma position_eqb_eq x y : position_eqb x y = true → x = y.
Proof. by destruct x, y. Qed.

Lemma at_position_nil x : at_position x [] → x = Outside.
Proof. destruct x; simpl; [by intros [? _]|done|done]. Qed.

(** Reading one character that is not a backslash. *)
Lemma at_position_step x d p :
  at_position x (d :: p) →
  at_position (if (d =? ch "{")%N then Inside
               else if (d =? ch "}")%N then Outside
               else match x with Start => Outside | _ => x end) p.
Proof.
  destruct x; unfold at_position, closed; simpl;
    destruct (d =? ch "{")%N, (d =? ch "}")%N; simpl; tauto.
Qed.

Lemma plus_loop_local step x k k' :
  (∀ k k', agree x k k' →
     agree x (λ t cap, step t cap k) (λ t cap, step t cap k')) →
  agree x k k' →
  ∀ n' n p cap, length (p ++ s) < n → length p < n' → at_position x p →
    plus_loop step n (p ++ s) cap k = extend (plus_loop step n' p cap k').
Proof.
  intros Hstep Hk. induction n' as [|n' IH]; intros n p cap Hn Hn' Hp; [lia|].
  destruct n as [|n]; [lia|]. simpl.
  apply (Hstep _ (λ s' cap', orelse
    (if decide (length s' < length p) then plus_loop step n' s' cap' k' else None)
    (k' s' cap'))); [|done].
  intros p' cap' Hp'. rewrite extend_orelse, (Hk p' cap' Hp').
  f_equal. rewrite !length_app.
  destruct (decide (length p' < length p)).
  - rewrite decide_True by lia. apply IH; [rewrite length_app in *; lia|lia|done].
  - by rewrite decide_False by lia.
Qed.

Lemma run_local r : ∀ x y, flow r x = Some y →
  ∀ k k', agree y k k' →
    agree x (λ t cap, run r t cap k) (λ t cap, run r t cap k').
Proof.
  induction r; intros x y Hflow k k' Hk p cap Hp; cbn [run flow] in *.
  - (* Chr *)
    destruct p as [|d p]; [unfold s|]; cbn [app].
    + apply at_position_nil in Hp as ->.
      destruct (N.eqb_spec c (ch "\")) as [->|Hc]; [done|].
      by destruct (N.eqb_spec (ch "\") c) as [<-|].
    + destruct (N.eqb_spec d c) as [->|]; [|done].
      apply Hk. apply at_position_step in Hp.
      destruct (c =? ch "\")%N eqn:Hbs.
      * apply N.eqb_eq in Hbs as ->.
        change (ch "\" =? ch "{")%N with false in Hp.
        change (ch "\" =? ch "}")%N with false in Hp.
        destruct x; try discriminate. by injection Hflow as <-.
      * destruct (c =? ch "{")%N; [by injection Hflow as <-|].
        destruct (c =? ch "}")%N; [by injection Hflow as <-|].
        by destruct x; injection Hflow as <-.
  - (* NotChr *)
    destruct (N.eqb_spec c (ch "}")) as [->|]; [|done].
    destruct x; try discriminate. injection Hflow as <-.
    destruct p as [|d p]; [done|]. cbn [app].
    destruct (N.eqb_spec d (ch "}")) as [|Hd]; [done|].
    apply Hk. apply at_position_step in Hp.
    rewrite (proj2 (N.eqb_neq _ _) Hd) in Hp. by destruct (d =? ch "{")%N.
  - (* OneOf *)
    destruct (forallb plain cs) eqn:Hcs; [|done].
    rewrite forallb_forall in Hcs.
    destruct p as [|d p]; [unfold s|]; cbn [app].
    + destruct (existsb (N.eqb _) cs) eqn:He; [|done].
      apply existsb_exists in He as (c & Hc%Hcs & <-%N.eqb_eq).
      unfold plain in Hc. by rewrite N.eqb_refl in Hc.
    + destruct (existsb (N.eqb _) cs) eqn:He; [|done].
      apply existsb_exists in He as (c & Hc%Hcs & <-%N.eqb_eq).
      apply Hk. apply at_position_step in Hp.
      unfold plain in Hc. rewrite !negb_orb in Hc.
      destruct (d =? ch "{")%N, (d =? ch "}")%N;
        try (by rewrite ?andb_false_r in Hc).
      by destruct x; injection Hflow as <-.
  - (* Eps *)
    injection Hflow as <-. by apply Hk.
  - (* Seq *)
    destruct (flow r1 x) as [z|] eqn:H1; [|done]. simpl in Hflow.
    by apply (IHr1 x z H1 _ _ (IHr2 z y Hflow k k' Hk)).
  - (* Alt *)
    destruct (flow r1 x) as [y1|] eqn:H1; [|done].
    destruct (flow r2 x) as [y2|] eqn:H2; [|done].
    destruct (position_eqb y1 y2) eqn:He; [|done].
    apply position_eqb_eq in He as <-. injection Hflow as <-.
    rewrite extend_orelse. f_equal; [by eapply IHr1|by eapply IHr2].
  - (* Opt *)
    destruct (flow r x) as [z|] eqn:H1; [|done].
    destruct (position_eqb z x) eqn:He; [|done].
    apply position_eqb_eq in He as ->. injection Hflow as <-.
    rewrite extend_orelse. f_equal; [by eapply IHr|by apply Hk].
  - (* Plus *)
    destruct (flow r x) as [z|] eqn:H1; [|done].
    destruct (position_eqb z x) eqn:He; [|done].
    apply position_eqb_eq in He as ->. injection Hflow as <-.
    apply (plus_loop_local (run r) x); [|done|lia|lia|done].
    intros k1 k1' Hk1. by apply (IHr x x).
  - (* Group *)
    apply (IHr x y Hflow
             (λ s' _, k s' (Some (take (length (p ++ s) - length s') (p ++ s))))
             (λ s' _, k' s' (Some (take (length p - length s') p)))); [|done].
    intros p' _ Hp'. rewrite Hk by done. do 3 f_equal.
    rewrite !length_app.
    replace (_ - _) with (length p - length p') by lia.
    apply take_app_le. lia.
Qed.

(** A match that starts in a closed text is the match in that text. *)
Lemma match_at_local r y p :
  flow r Start = Some y → p ≠ [] → closed p →
  match_at r (p ++ s) = extend (match_at r p).
Proof.
  intros Hflow Hne Hp. unfold match_at.
  by apply (run_local r Start y Hflow
              (λ s' cap, Some (cap, s')) (λ s' cap, Some (cap, s'))).
Qed.

(** So [findall] reaches the position after a closed text and finds
    there what it finds in the rest alone. *)
Lemma findall_from_reaches r y pre n g :
  flow r Start = Some y → closed pre → n ≤ length pre →
  g ∈ findall r s → g ∈ findall_from r n (pre ++ s).
Proof.
  intros Hflow Hpre Hn Hg. revert n Hpre Hn.
  induction pre as [|c pre IH]; intros n Hpre Hn.
  - by replace n with 0 by (simpl in Hn; lia).
  - pose proof (closed_tail _ _ Hpre) as Hpre'.
    destruct n as [|n]; simpl in *; [|apply IH; [done|lia]].
    change (c :: pre ++ s) with ((c :: pre) ++ s).
    rewrite (match_at_local r y (c :: pre)) by done.
    destruct (match_at r (c :: pre)) as [m|]; simpl.
    + right. apply IH; [done|]. rewrite !length_app. lia.
    + apply IH; [done|lia].
Qed.

End Locality.

(** ** Commands in a text *)

Section Commands.

Import Re.

Lemma match_label x post :
  x ≠ [] → ch "}" ∉ x →
  match_at label_pattern (py "\label{" ++ x ++ ch "}" :: post)
  = Some (Some x, post).
Proof.
  intros Hx Hnot. unfold match_at.
  change (run label_pattern ?s ?c ?k) with
    (run (lit (py "\label{")) s c (λ s' c', run argument s' c' k)).
  rewrite run_lit_app. by apply (run_argument x post).
Qed.

Lemma run_ref_head_command cmd t cap k :
  cmd ∈ ref_commands →
  run_ref_head (ch "\" :: cmd ++ ch "{" :: t) cap k = k t cap.
Proof.
  intros Hcmd%list_elem_of_In. vm_compute in Hcmd.
  repeat (destruct Hcmd as [<-|Hcmd];
          [vm_compute; by destruct (k t cap)|]).
  done.
Qed.

Lemma match_ref cmd x post :
  cmd ∈ ref_commands → x ≠ [] → ch "}" ∉ x →
  match_at ref_pattern (ch "\" :: cmd ++ ch "{" :: x ++ ch "}" :: post)
  = Some (Some x, post).
Proof.
  intros Hcmd Hx Hnot. unfold match_at.
  change (run ref_pattern ?s ?c ?k) with
    (run_ref_head s c (λ s' c', run argument s' c' k)).
  rewrite run_ref_head_command by done. by apply (run_argument x post).
Qed.

(** A match of the label pattern has its group set. *)
Lemma match_label_group s m :
  match_at label_pattern s = Some m → is_Some (m.1).
Proof.
  unfold match_at.
  change (run label_pattern ?s ?c ?k) with
    (run (lit (py "\label{")) s c (λ s' c',
       run (Group (Plus (NotChr (ch "}")))) s' c' (λ s'' c'',
         run (Chr (ch "}")) s'' c'' k))).
  intros (t & _ & Ht)%run_lit_inv.
  apply run_group_inv in Ht as (s1 & g & H1).
  cbn [run] in H1. destruct s1 as [|d s1]; [done|].
  destruct (_ =? _)%N; [|done]. injection H1 as <-. by eexists.
Qed.

Lemma search_label_group s m :
  search label_pattern s = Some m → is_Some (m.1).
Proof.
  intros (a & b & _ & Hm & _)%search_leftmost. by eapply match_label_group.
Qed.

(** A command after a closed text is found by [findall]. *)
Lemma findall_command r y pre s0 g rest :
  flow r Start = Some y → closed pre →
  match_at r (ch "\" :: s0) = Some (Some g, rest) →
  g ∈ findall r (pre ++ ch "\" :: s0).
Proof.
  intros Hflow Hpre Hm.
  apply (findall_from_reaches s0 r y pre 0 g Hflow Hpre); [lia|].
  unfold findall. cbn [findall_from]. rewrite Hm. left.
Qed.

(** The set [extract_references] builds. *)
Lemma elem_of_extract_references content x :
  x ∈ extract_references content ↔
  ∃ arg piece, arg ∈ findall ref_pattern content
               ∧ piece ∈ Py.split Py.comma arg ∧ x = Py.strip piece.
Proof.
  unfold extract_references.
  assert (Hfold : ∀ (matches : list str) (init : gset str),
    x ∈ foldl (λ references match_,
                 references ∪ list_to_set (Py.strip <$> Py.split Py.comma match_))
              init matches ↔
    x ∈ init ∨ ∃ arg piece, arg ∈ matches
               ∧ piece ∈ Py.split Py.comma arg ∧ x = Py.strip piece).
  { induction matches as [|m matches IH]; intros init; simpl.
    - split; [by left|]. intros [?|(? & ? & []%elem_of_nil & _)]; done.
    - rewrite IH, elem_of_union, elem_of_list_to_set, list_elem_of_fmap.
      split.
      + intros [[?|(piece & -> & ?)]|(arg & piece & ? & ? & ?)].
        * by left.
        * right. exists m, piece. split_and!; [left|done..].
        * right. exists arg, piece. split_and!; [by right|done..].
      + intros [?|(arg & piece & [->|?]%elem_of_cons & ? & ->)].
        * by left; left.
        * left; right. by exists piece.
        * right. by exists arg, piece. }
  rewrite Hfold. split; [by intros [[]%elem_of_empty|?]|by right].
Qed.

End Commands.

(** ** The line scan *)

Section Scan.

Import Re.

Lemma last_label_cons line span :
  last_label (line :: span)
  = match last_label span with
    | Some g => Some g
    | None => declared_label line
    end.
Proof.
  unfold last_label. simpl.
  destruct (declared_label line); [by rewrite last_cons|by destruct (last _)].
Qed.

(** What the inner loop returns: the first line with the end-marker, the
    lines up to it, and the label of the last of them that declares one. *)
Lemma collect_Some env rest j acc lbl j' acc' lbl' :
  collect env rest j acc lbl = Some (j', acc', lbl') →
  ∃ k, j' = j + k
       ∧ (∃ l, rest !! k = Some l ∧ has_end env l)
       ∧ (∀ k' l, k' < k → rest !! k' = Some l → ¬ has_end env l)
       ∧ acc' = acc ++ take (S k) rest
       ∧ lbl' = match last_label (take (S k) rest) with
                | Some g => Some g
                | None => lbl
                end.
Proof.
  revert j acc lbl. induction rest as [|line rest IH]; intros j acc lbl; [done|].
  cbn [collect].
  assert (Hlabel : match search label_pattern line with
                   | Some label_match => label_match.1
                   | None => lbl
                   end = match declared_label line with
                         | Some g => Some g
                         | None => lbl
                         end).
  { unfold declared_label.
    destruct (search label_pattern line) as [m|] eqn:Hm; [|done]. simpl.
    by destruct (search_label_group _ _ Hm) as [g ->]. }
  rewrite Hlabel. clear Hlabel. case_bool_decide as Hend.
  - intros [= <- <- <-]. exists 0. split_and!.
    + lia.
    + by exists line.
    + intros; lia.
    + simpl. by rewrite take_0.
    + simpl. by rewrite take_0, last_label_cons.
  - intros (k & -> & Hk & Hbefore & -> & ->)%IH. exists (S k). split_and!.
    + lia.
    + done.
    + intros [|k'] l Hlt; simpl; [by intros [= ->]|].
      apply Hbefore. lia.
    + by rewrite <- app_assoc.
    + change (take (S (S k)) (line :: rest)) with (line :: take (S k) rest).
      rewrite last_label_cons. by destruct (last_label _).
Qed.

Lemma collect_is_Some env rest j acc lbl :
  (∃ l, l ∈ rest ∧ has_end env l) → is_Some (collect env rest j acc lbl).
Proof.
  revert j acc lbl. induction rest as [|line rest IH]; intros j acc lbl.
  - by intros (l & []%elem_of_nil & _).
  - intros (l & Hl & Hend). cbn [collect]. case_bool_decide as Hline; [done|].
    apply IH. apply elem_of_cons in Hl as [->|Hl]; [done|]. by exists l.
Qed.

(** One turn of the outer loop. *)
Lemma scan_unfold lines i :
  scan lines i =
  match lines !! i with
  | None => []
  | Some line =>
      match select_env line with
      | None => scan lines (S i)
      | Some env =>
          match collect env (drop i lines) i [] None with
          | Some (j, equation_lines, label) =>
              (S i, Py.strip (Py.join [Py.newline] equation_lines), label)
                :: scan lines (S j)
          | None => scan lines (S i)
          end
      end
  end.
Proof.
  funelim (scan lines i); clear Heqcall;
    repeat match goal with
      | H : lines !! _ = _ |- _ => rewrite H
      | H : select_env _ = _ |- _ => rewrite H
      | H : collect _ _ _ _ _ = _ |- _ => rewrite H
      end; done.
Qed.

(** Every equation the scan returns starts at a line it reached, with the
    environment [select_env] chose there and what [collect] gathered. *)
Lemma scan_elem lines i b :
  b ∈ scan lines i →
  ∃ i' line env j equation_lines,
    i ≤ i' ∧ start_line b = S i'
    ∧ lines !! i' = Some line ∧ select_env line = Some env
    ∧ collect env (drop i' lines) i' [] None = Some (j, equation_lines, label b)
    ∧ equation_content b = Py.strip (Py.join [Py.newline] equation_lines).
Proof.
  remember (length lines - i) as n eqn:Hn. revert i Hn.
  induction (lt_wf n) as [n _ IH]; intros i ->.
  assert (Hnext : ∀ i2, i < i2 → i < length lines → b ∈ scan lines i2 →
    ∃ i' line env j equation_lines,
      i ≤ i' ∧ start_line b = S i'
      ∧ lines !! i' = Some line ∧ select_env line = Some env
      ∧ collect env (drop i' lines) i' [] None = Some (j, equation_lines, label b)
      ∧ equation_content b = Py.strip (Py.join [Py.newline] equation_lines)).
  { intros i2 Hlt Hlen Hb.
    destruct (IH (length lines - i2) ltac:(lia) i2 eq_refl Hb)
      as (i' & line & env & j & eql & ? & ?).
    exists i', line, env, j, eql. split; [lia|done]. }
  rewrite scan_unfold.
  destruct (lines !! i) as [line|] eqn:Hline; [|by intros []%elem_of_nil].
  pose proof (lookup_lt_Some _ _ _ Hline) as Hlen.
  destruct (select_env line) as [env|] eqn:Henv; [|apply Hnext; lia].
  destruct (collect env (drop i lines) i [] None) as [[[j eql] lbl]|] eqn:Hc;
    [|apply Hnext; lia].
  intros [->|Hb]%elem_of_cons.
  - by exists i, line, env, j, eql.
  - apply collect_Some in Hc as (k & -> & _).
    apply (Hnext (S (i + k))); [lia|done..].
Qed.

(** The start lines of the equations increase: the scan never goes
    back. *)
Lemma scan_sorted lines i :
  StronglySorted lt (i :: (start_line <$> scan lines i)).
Proof.
  remember (length lines - i) as n eqn:Hn. revert i Hn.
  induction (lt_wf n) as [n _ IH]; intros i ->.
  assert (Hnext : ∀ i2, i < i2 → i < length lines →
            StronglySorted lt (i :: (start_line <$> scan lines i2))).
  { intros i2 Hlt Hlen.
    pose proof (IH (length lines - i2) ltac:(lia) i2 eq_refl) as Hs.
    apply StronglySorted_inv in Hs as [Hs Hall].
    constructor; [done|].
    eapply Forall_impl; [exact Hall|]. simpl. lia. }
  rewrite scan_unfold.
  destruct (lines !! i) as [line|] eqn:Hline; [|repeat constructor].
  pose proof (lookup_lt_Some _ _ _ Hline) as Hlen.
  destruct (select_env line) as [env|] eqn:Henv; [|apply Hnext; lia].
  destruct (collect env (drop i lines) i [] None) as [[[j eql] lbl]|] eqn:Hc;
    [|apply Hnext; lia].
  apply collect_Some in Hc as (k & -> & _). rewrite fmap_cons.
  change (start_line (S i, _, lbl)) with (S i).
  pose proof (IH (length lines - S (i + k)) ltac:(lia) (S (i + k)) eq_refl) as Hs.
  apply StronglySorted_inv in Hs as [Hs Hall].
  repeat constructor; [done|..].
  - eapply Forall_impl; [exact Hall|]. simpl. lia.
  - eapply Forall_impl; [exact Hall|]. simpl. lia.
Qed.

(** The equations of a text: each starts at a line [select_env] accepts,
    runs to the first line from there on with the matching end-marker,
    and carries the label of the last of its lines that declares one. *)
Lemma equation_block content b :
  b ∈ extract_numbered_equations content →
  ∃ i j line env,
    start_line b = S i
    ∧ Py.split Py.newline content !! i = Some line
    ∧ select_env line = Some env
    ∧ closes (Py.split Py.newline content) env i j
    ∧ equation_content b
      = Py.strip (Py.join [Py.newline] (slice (Py.split Py.newline content) i j))
    ∧ label b = last_label (slice (Py.split Py.newline content) i j).
Proof.
  unfold extract_numbered_equations.
  intros (i & line & env & j & eql & _ & Hstart & Hline & Henv & Hc & Htext)
    %scan_elem.
  apply collect_Some in Hc as (k & -> & (l & Hl & Hend) & Hbefore & -> & Hlbl).
  rewrite lookup_drop in Hl.
  exists i, (i + k), line, env.
  assert (Hslice : slice (Py.split Py.newline content) i (i + k)
                   = take (S k) (drop i (Py.split Py.newline content))).
  { unfold slice. f_equal. lia. }
  rewrite Hslice. split_and!; try done.
  - split_and!; [lia|by exists l|].
    intros k' l' Hk' Hl'. apply (Hbefore (k' - i) l'); [lia|].
    rewrite lookup_drop. by replace (i + (k' - i)) with k' by lia.
  - rewrite Hlbl. by destruct (last_label _).
Qed.


End Scan.

(** ** The unreferenced equations *)

Section Unreferenced.

Lemma keep_unreferenced_filter references equations :
  keep_unreferenced references equations
  = listed <$> filter (unreferenced references) equations.
Proof.
  unfold keep_unreferenced.
  assert (Hfold : ∀ acc,
    foldl (λ unreferenced_equations '(line_num, eq_content, label),
             if match label with
                | None => true
                | Some l => bool_decide (l ∉ references)
                end
             then unreferenced_equations ++ [(line_num, eq_content)]
             else unreferenced_equations) acc equations
    = acc ++ (listed <$> filter (unreferenced references) equations)).
  { induction equations as [|[[n text] lbl] equations IH]; intros acc; simpl.
    - by rewrite app_nil_r.
    - rewrite IH, filter_cons.
      destruct (decide (unreferenced references (n, text, lbl))) as [Hu|Hu];
        unfold unreferenced in Hu; simpl in Hu; destruct lbl as [l|].
      + rewrite bool_decide_eq_true_2 by done. by rewrite <- app_assoc.
      + by rewrite <- app_assoc.
      + by rewrite bool_decide_eq_false_2 by done.
      + done. }
  apply (Hfold []).
Qed.

(** No two equations of a text start at the same line. *)
Lemma start_lines_NoDup content :
  NoDup (start_line <$> extract_numbered_equations content).
Proof.
  pose proof (scan_sorted (Py.split Py.newline content) 0) as Hs.
  apply StronglySorted_inv in Hs as [Hs _].
  clear -Hs. unfold extract_numbered_equations.
  induction Hs as [|n l Hs IH Hall]; constructor; [|done].
  intros Hn. rewrite Forall_forall in Hall. apply Hall in Hn. lia.
Qed.

End Unreferenced.

(** ** Running the script *)

Section Run.

Variable with_suffix_txt : str → str.
Variable no_such_file : str → str.

Lemma bind_Return {A B} (m : io A) (f : A → io B) w a w' :
  m w = (Return a, w') → (m ≫= f) w = f a w'.
Proof. unfold mbind, io_bind. by intros ->. Qed.

Lemma bind_SysExit {A B} (m : io A) (f : A → io B) w n w' :
  m w = (SysExit n, w') → (m ≫= f) w = (SysExit n, w').
Proof. unfold mbind, io_bind. by intros ->. Qed.

Lemma read_text_Text path content w :
  files w !! path = Some (Text content) →
  read_text no_such_file path w = (Return content, log (Read path) w).
Proof. unfold read_text. by intros ->. Qed.

Lemma find_unreferenced_labels_Text path content w :
  files w !! path = Some (Text content) →
  find_unreferenced_labels no_such_file path w
  = (Return (Py.sorted (elements (extract_labels content
                                  ∖ extract_references content))),
     log (Read path) w).
Proof.
  intros Hfile. unfold find_unreferenced_labels.
  by rewrite (bind_Return _ _ _ _ _ (read_text_Text _ _ _ Hfile)).
Qed.

Lemma find_unreferenced_equations_Text path content w :
  files w !! path = Some (Text content) →
  find_unreferenced_equations no_such_file path w
  = (Return (keep_unreferenced (extract_references content)
                               (extract_numbered_equations content)),
     log (Read path) w).
Proof.
  intros Hfile. unfold find_unreferenced_equations.
  by rewrite (bind_Return _ _ _ _ _ (read_text_Text _ _ _ Hfile)).
Qed.

Lemma for_each_print {A} (l : list A) (f : A → str) w :
  for_each l (λ x, print (f x)) w
  = (Return (), World (files w) (events w ++ (Print ∘ f <$> l))).
Proof.
  revert w. induction l as [|x l IH]; intros [fs evs]; simpl.
  - by rewrite app_nil_r.
  - unfold mbind, io_bind, print. simpl. rewrite IH. simpl.
    by rewrite <- app_assoc.
Qed.

(** The sorted list holds the set it was made from. *)
Lemma sorted_elements (X : gset str) : list_to_set (Py.sorted (elements X)) = X.
Proof.
  unfold Py.sorted.
  rewrite (list_to_set_perm_L _ _ (merge_sort_Permutation _ _)).
  apply list_to_set_elements_L.
Qed.

Lemma elem_of_sorted_elements (X : gset str) x :
  x ∈ Py.sorted (elements X) ↔ x ∈ X.
Proof. by rewrite <- (sorted_elements X) at 2; rewrite elem_of_list_to_set. Qed.

(** A run on a path that names nothing. *)
Lemma main_not_found prog path w :
  files w !! path = None →
  main with_suffix_txt no_such_file [prog; path] w
  = (SysExit 1,
     log (Print (py "Error: File '" ++ path ++ py "' not found.")) w).
Proof.
  intros Hnone. unfold main, path_exists, mbind, io_bind.
  rewrite Hnone. rewrite bool_decide_eq_false_2 by (by intros [? ?]). done.
Qed.

(** A run on a path that names something [open] fails on, a directory
    say: [os.path.exists] holds, the first read raises, and the run ends
    with the message of the exception and status 1, nothing written. *)
Lemma main_Unreadable prog path error w :
  files w !! path = Some (Unreadable error) →
  main with_suffix_txt no_such_file [prog; path] w
  = (SysExit 1,
     World (files w)
       (events w
        ++ (if Py.endswith (Py.lower path) (py ".tex") then []
            else [Print (py "Warning: Input file does not have a .tex extension.")])
        ++ [Read path; Print (py "Error processing file: " ++ error)])).
Proof.
  intros Hfile. destruct w as [fs evs]. simpl in Hfile.
  unfold main, path_exists. unfold mbind at 1, io_bind at 1. cbn [files].
  rewrite Hfile, bool_decide_eq_true_2 by eauto. cbn [negb when].
  unfold mbind at 1, io_bind at 1. unfold mret at 1, io_ret at 1.
  unfold mbind at 1, io_bind at 1.
  assert (Hraise : ∀ w1, files w1 = fs →
    try_except
      (unreferenced_labels ← find_unreferenced_labels no_such_file path;
       unreferenced_equations ← find_unreferenced_equations no_such_file path;
       mret (unreferenced_labels, unreferenced_equations))
      (λ e, print (py "Error processing file: " ++ e) ;; sys_exit 1) w1
    = (SysExit 1,
       World fs (events w1
                 ++ [Read path; Print (py "Error processing file: " ++ error)]))).
  { intros [fs1 evs1] [= ->].
    unfold try_except, find_unreferenced_labels, read_text, mbind, io_bind.
    cbn [files log]. rewrite Hfile. unfold print, sys_exit, log. cbn [files events].
    by rewrite <- app_assoc. }
  destruct (Py.endswith _ _); cbn [negb when].
  - unfold mret at 1, io_ret at 1.
    by rewrite (bind_SysExit _ _ _ _ _ (Hraise (World fs evs) eq_refl)).
  - unfold print at 1.
    rewrite (bind_SysExit _ _ _ _ _ (Hraise (log _ (World fs evs)) eq_refl)).
    cbn [log events]. by rewrite <- app_assoc.
Qed.

Lemma prints_only_print text : prints_only (print text).
Proof.
  intros w. exists [Print text]. split; [|done].
  repeat constructor. by exists text.
Qed.

Lemma prints_only_bind (m : io unit) (k : io unit) :
  prints_only m → prints_only k → prints_only (m ≫= λ _, k).
Proof.
  intros Hm Hk w. destruct (Hm w) as (l1 & Hl1 & Hm1).
  destruct (Hk (World (files w) (events w ++ l1))) as (l2 & Hl2 & Hk2).
  exists (l1 ++ l2). split; [by apply Forall_app|].
  unfold mbind, io_bind. rewrite Hm1, Hk2. simpl. by rewrite <- app_assoc.
Qed.

Lemma prints_only_when b m : prints_only m → prints_only (when b m).
Proof.
  intros Hm. destruct b; [done|]. intros [fs evs]. exists []. split; [done|].
  simpl. by rewrite app_nil_r.
Qed.

Lemma prints_only_for_each {A} (l : list A) (body : A → io unit) :
  (∀ x, prints_only (body x)) → prints_only (for_each l body).
Proof.
  intros Hbody. induction l as [|x l IH]; simpl.
  - intros [fs evs]. exists []. split; [done|]. simpl. by rewrite app_nil_r.
  - by apply prints_only_bind.
Qed.

(** The summary on the console, after the report is written. *)
Lemma summary_prints output_file_path tex_file_path
    (unreferenced_labels : list str)
    (unreferenced_equations : list (nat * str)) :
  prints_only
    (print (py "Processed: " ++ tex_file_path) ;;
     print (py "Output written to: " ++ output_file_path) ;;
     print (Py.newline :: py "Summary:") ;;
     print (py "  - " ++ Py.of_nat (length unreferenced_labels)
            ++ py " unreferenced label(s)") ;;
     print (py "  - " ++ Py.of_nat (length unreferenced_equations)
            ++ py " unreferenced equation(s)") ;;
     when (bool_decide (unreferenced_labels ≠ []))
       (print (Py.newline :: py "Unreferenced labels:") ;;
        for_each unreferenced_labels (λ label, print (py "  - " ++ label))) ;;
     when (bool_decide (unreferenced_equations ≠ []))
       (print (Py.newline :: py "Unreferenced equations at lines:") ;;
        for_each unreferenced_equations
          (λ '(line_num, _), print (py "  - Line " ++ Py.of_nat line_num)))).
Proof.
  repeat first
    [ apply prints_only_bind | apply prints_only_print
    | apply prints_only_when | apply prints_only_for_each; intros ? ].
  destruct x. apply prints_only_print.
Qed.

(** Both functions read the file; neither raises on a text file. *)
Lemma both_Text path content (handler : str → io (list str * list (nat * str))) w :
  files w !! path = Some (Text content) →
  try_except
    (unreferenced_labels ← find_unreferenced_labels no_such_file path;
     unreferenced_equations ← find_unreferenced_equations no_such_file path;
     mret (unreferenced_labels, unreferenced_equations))
    handler w
  = (Return (Py.sorted (elements (extract_labels content
                                  ∖ extract_references content)),
             keep_unreferenced (extract_references content)
                               (extract_numbered_equations content)),
     World (files w) (events w ++ [Read path] ++ [Read path])).
Proof.
  intros Hfile. unfold try_except.
  rewrite (bind_Return _ _ _ _ _ (find_unreferenced_labels_Text _ _ _ Hfile)).
  rewrite (bind_Return _ _ _ _ _
             (find_unreferenced_equations_Text _ _ (log (Read path) w) Hfile)).
  unfold mret, io_ret, log. simpl. by rewrite <- app_assoc.
Qed.

(** A run on a text file: the warning if the name asks for one, the two
    reads, the report, the summary. *)
Lemma main_Text prog path content w :
  files w !! path = Some (Text content) →
  let labels :=
    Py.sorted (elements (extract_labels content ∖ extract_references content)) in
  let equations :=
    keep_unreferenced (extract_references content)
                      (extract_numbered_equations content) in
  let warning :=
    if Py.endswith (Py.lower path) (py ".tex") then []
    else [Print (py "Warning: Input file does not have a .tex extension.")] in
  ∃ summary, Forall is_print summary ∧
    main with_suffix_txt no_such_file [prog; path] w
    = match files w !! with_suffix_txt path with
      | Some (Unreadable error) =>
          (Raise error,
           World (files w) (events w ++ warning ++ [Read path; Read path]))
      | _ =>
          (Return (),
           World (<[with_suffix_txt path := Text (report labels equations)]>
                    (files w))
                 (events w ++ warning ++ [Read path; Read path]
                  ++ Write (with_suffix_txt path) (report labels equations)
                  :: summary))
      end.
Proof.
  intros Hfile labels equations warning.
  destruct w as [fs evs]. simpl in Hfile.
  unfold main, path_exists. unfold mbind at 1, io_bind at 1. cbn [files].
  rewrite Hfile, bool_decide_eq_true_2 by eauto. cbn [negb when].
  unfold mbind at 1, io_bind at 1. unfold mret at 1, io_ret at 1.
  unfold mbind at 1, io_bind at 1.
  set (w1 := World fs (evs ++ warning)).
  assert (Hwarn : when (negb (Py.endswith (Py.lower path) (py ".tex")))
            (print (py "Warning: Input file does not have a .tex extension."))
            (World fs evs) = (Return (), w1)).
  { unfold w1, warning. destruct (Py.endswith _ _); simpl.
    - by rewrite app_nil_r.
    - done. }
  rewrite Hwarn. clear Hwarn.
  rewrite (bind_Return _ _ _ _ _ (both_Text path content _ w1 Hfile)).
  unfold mbind at 1, io_bind at 1, write_text at 1. cbn [files events log w1].
  destruct (summary_prints (with_suffix_txt path) path labels equations
              (World (<[with_suffix_txt path := Text (report labels equations)]> fs)
                 (((evs ++ warning) ++ [Read path] ++ [Read path])
                  ++ [Write (with_suffix_txt path) (report labels equations)])))
    as (summary & Hprints & Hsummary).
  exists summary. split; [done|].
  assert (Hevents :
    (((evs ++ warning) ++ [Read path] ++ [Read path])
     ++ [Write (with_suffix_txt path) (report labels equations)]) ++ summary
    = evs ++ warning ++ [Read path; Read path]
      ++ Write (with_suffix_txt path) (report labels equations) :: summary).
  { by rewrite <- !app_assoc. }
  cbn [files events] in Hsummary. rewrite Hevents in Hsummary.
  destruct (fs !! with_suffix_txt path) as [[text|error]|] eqn:Hout.
  - exact Hsummary.
  - by rewrite <- !app_assoc.
  - exact Hsummary.
Qed.

End Run.

(** * The claims *)

(** ** Labels and references *)

(** C3: for every document text, the unreferenced labels (declared minus
    referenced) and the referenced labels that are declared (declared
    intersect referenced) are disjoint, and together they are the declared
    labels; the list [find_unreferenced_labels] returns for a file with
    that text holds exactly the first of the two sets. *)
Theorem C3_unreferenced_partition (content : str) :
  let declared := extract_labels content in
  let referenced := extract_references content in
  (declared ∖ referenced) ## (declared ∩ referenced)
  ∧ (declared ∖ referenced) ∪ (declared ∩ referenced) = declared
  ∧ ∀ no_such_file path w,
      files w !! path = Some (Text content) →
      ∃ out w', find_unreferenced_labels no_such_file path w = (Return out, w')
                ∧ list_to_set out = declared ∖ referenced.
Proof.
  intros declared referenced. split_and!.
  - intros x [_ Hnot]%elem_of_difference [_ Hin]%elem_of_intersection. done.
  - apply set_eq. intros x. rewrite elem_of_union, elem_of_difference,
      elem_of_intersection. destruct (decide (x ∈ referenced)); tauto.
  - intros no_such_file path w Hfile. eexists _, _. split.
    + by apply find_unreferenced_labels_Text.
    + apply sorted_elements.
Qed.

Lemma C3_witness :
  ∃ out w', find_unreferenced_labels errno2 (py "a.tex")
              (one_file (py "a.tex") padded_label) = (Return out, w')
            ∧ list_to_set out
              = extract_labels padded_label ∖ extract_references padded_label.
Proof.
  apply (C3_unreferenced_partition padded_label). reflexivity.
Defined.



(** C9: a declared label that starts or ends with whitespace is never in
    the reference set, whatever the document cites, because every reference
    is stripped and no label is; it is always in the list of unreferenced
    labels. *)
Theorem C9_padded_label_unreferenced (content l : str) (c : char) :
  l ∈ extract_labels content →
  head l = Some c ∨ last l = Some c →
  Py.isspace c = true →
  (l ∉ extract_references content)
  ∧ ∀ no_such_file path w,
      files w !! path = Some (Text content) →
      ∃ out w', find_unreferenced_labels no_such_file path w = (Return out, w')
                ∧ l ∈ out.
Proof.
  intros Hl Hc Hspace.
  assert (Hnot : l ∉ extract_references content).
  { intros (arg & piece & _ & _ & ->)%elem_of_extract_references.
    destruct Hc as [Hc|Hc]; [apply strip_head in Hc|apply strip_last in Hc];
      congruence. }
  split; [done|]. intros no_such_file path w Hfile. eexists _, _. split.
  - by apply find_unreferenced_labels_Text.
  - apply elem_of_sorted_elements. by apply elem_of_difference.
Qed.

Lemma C9_witness :
  (py " a " ∉ extract_references padded_label)
  ∧ ∃ out w', find_unreferenced_labels errno2 (py "a.tex")
                (one_file (py "a.tex") padded_label) = (Return out, w')
              ∧ py " a " ∈ out.
Proof.
  destruct (C9_padded_label_unreferenced padded_label (py " a ") (ch " "))
    as [Hnot Hout].
  - apply elem_of_list_to_set. vm_compute. left.
  - by left.
  - reflexivity.
  - split; [exact Hnot|]. apply Hout. reflexivity.
Defined.

(** ** The run *)

Lemma reads_prints evs : Forall is_print evs → reads evs = [] ∧ writes evs = [].
Proof.
  induction 1 as [|e evs [text ->] _ [IHr IHw]]; [done|].
  change (reads (Print text :: evs)) with (reads evs).
  by change (writes (Print text :: evs)) with (writes evs).
Qed.

(** C2, as the code has it: on an existing readable input file the run
    reads the file twice, once in [find_unreferenced_labels] and once in
    [find_unreferenced_equations]; both reads come before the report is
    written, nothing is read after it, and the report is the only file
    written. *)
Theorem C2_reads_twice (with_suffix_txt no_such_file : str → str)
    (prog path content : str) (w : world) :
  files w !! path = Some (Text content) →
  ∃ before after,
    new_events w (main with_suffix_txt no_such_file [prog; path] w).2
    = before ++ after
    ∧ reads before = [path; path] ∧ writes before = []
    ∧ reads after = []
    ∧ writes after
      = match files w !! with_suffix_txt path with
        | Some (Unreadable _) => []
        | _ => [(with_suffix_txt path,
                 report
                   (Py.sorted (elements (extract_labels content
                                         ∖ extract_references content)))
                   (keep_unreferenced (extract_references content)
                      (extract_numbered_equations content)))]
        end.
Proof.
  intros Hfile.
  destruct (main_Text with_suffix_txt no_such_file prog path content w Hfile)
    as (summary & [Hr Hw]%reads_prints & ->).
  set (warning := if Py.endswith (Py.lower path) (py ".tex") then []
                  else [Print (py "Warning: Input file does not have a .tex extension.")]).
  assert (Hwarning : reads warning = [] ∧ writes warning = []).
  { unfold warning. by destruct (Py.endswith _ _). }
  destruct Hwarning as [Hwr Hww].
  exists (warning ++ [Read path; Read path]).
  assert (Hbefore : reads (warning ++ [Read path; Read path]) = [path; path]
                    ∧ writes (warning ++ [Read path; Read path]) = []).
  { unfold reads, writes in *. by rewrite !omap_app, Hwr, Hww. }
  destruct Hbefore as [Hbr Hbw]. unfold new_events.
  destruct (files w !! with_suffix_txt path) as [[text|error]|]; cbn [snd events].
  - eexists (Write _ _ :: summary). rewrite drop_app_length.
    split_and!; [by rewrite <- app_assoc|done..|].
    change (writes (Write ?p ?t :: summary)) with ((p, t) :: writes summary).
    by rewrite Hw.
  - exists []. rewrite drop_app_length. by rewrite app_nil_r.
  - eexists (Write _ _ :: summary). rewrite drop_app_length.
    split_and!; [by rewrite <- app_assoc|done..|].
    change (writes (Write ?p ?t :: summary)) with ((p, t) :: writes summary).
    by rewrite Hw.
Qed.

Lemma C2_witness :
  ∃ before after,
    new_events (one_file (py "a.tex") padded_label)
      (main append_txt errno2 [script; py "a.tex"]
         (one_file (py "a.tex") padded_label)).2
    = before ++ after
    ∧ reads before = [py "a.tex"; py "a.tex"] ∧ writes before = []
    ∧ reads after = []
    ∧ writes after
      = [(py "a.tex.txt",
          report
            (Py.sorted (elements (extract_labels padded_label
                                  ∖ extract_references padded_label)))
            (keep_unreferenced (extract_references padded_label)
               (extract_numbered_equations padded_label)))].
Proof.
  apply (C2_reads_twice append_txt errno2 script (py "a.tex") padded_label
           (one_file (py "a.tex") padded_label)).
  reflexivity.
Defined.

(** The claim as the specification words it, one read per run, fails on a
    one-file system. *)
Lemma C2_counterexample :
  ¬ reads_once append_txt errno2 script (py "a.tex")
      (one_file (py "a.tex") padded_label).
Proof. unfold reads_once. vm_compute. discriminate. Qed.

(** C8: when the path given on the command line names nothing, the run
    prints the not-found message and nothing else, ends with status 1, and
    writes no file. *)
Theorem C8_missing_file (with_suffix_txt no_such_file : str → str)
    (prog path : str) (w : world) :
  files w !! path = None →
  let run := main with_suffix_txt no_such_file [prog; path] w in
  run.1 = SysExit 1
  ∧ exit_status run.1 = 1
  ∧ files run.2 = files w
  ∧ new_events w run.2
    = [Print (py "Error: File '" ++ path ++ py "' not found.")]
  ∧ writes (new_events w run.2) = [].
Proof.
  intros Hnone run. unfold run. rewrite main_not_found by done.
  unfold new_events. simpl. by rewrite drop_app_length.
Qed.

Lemma C8_witness :
  let run := main append_txt errno2 [script; py "chapter1.tex"]
               (one_file (py "a.tex") padded_label) in
  run.1 = SysExit 1
  ∧ exit_status run.1 = 1
  ∧ files run.2 = files (one_file (py "a.tex") padded_label)
  ∧ new_events (one_file (py "a.tex") padded_label) run.2
    = [Print (py "Error: File '" ++ py "chapter1.tex" ++ py "' not found.")]
  ∧ writes (new_events (one_file (py "a.tex") padded_label) run.2) = [].
Proof.
  apply (C8_missing_file append_txt errno2 script (py "chapter1.tex")
           (one_file (py "a.tex") padded_label)).
  reflexivity.
Defined.

(** ** Equation blocks *)

(** C1, as the code has it: the label recorded for an equation is the
    leftmost label declaration of the last line of its span that declares
    a label (none when no line does).  Labels on earlier lines, and further
    labels on that line, are ignored. *)
Theorem C1_last_label_wins (content : str) (b : equation) :
  b ∈ extract_numbered_equations content →
  ∃ span,
    spans content b span
    ∧ equation_content b = Py.strip (Py.join [Py.newline] span)
    ∧ label b = last_label span.
Proof.
  intros (i & j & line & env & ? & ? & ? & ? & ? & ?)%equation_block.
  eexists. split_and!; [by exists i, j, line, env|done..].
Qed.

Lemma C1_witness :
  ∃ span,
    spans two_labels (1, two_labels, Some (py "y")) span
    ∧ equation_content (1, two_labels, Some (py "y"))
      = Py.strip (Py.join [Py.newline] span)
    ∧ label (1, two_labels, Some (py "y")) = last_label span.
Proof.
  apply (C1_last_label_wins two_labels (1, two_labels, Some (py "y"))).
  vm_compute. left.
Defined.

(** The claim as the specification words it, "first match wins", fails on
    an [align] with a label on each row: the second label is recorded. *)
Lemma C1_counterexample :
  ∃ b span,
    b ∈ extract_numbered_equations two_labels
    ∧ spans two_labels b span
    ∧ 1 < length (declarations span)
    ∧ first_label span = Some (py "x")
    ∧ label b = Some (py "y")
    ∧ label b ≠ first_label span.
Proof.
  exists (1, two_labels, Some (py "y")), (Py.split Py.newline two_labels).
  split_and!; [vm_compute; left| |vm_compute; lia|done..].
  exists 0, 3, (py "\begin{align}"), (py "align").
  split_and!; [done..| |done].
  split_and!; [lia|exists (py "\end{align}"); split; [done|vm_compute; eauto]|].
  intros k l Hk Hl Hend.
  assert (k = 0 ∨ k = 1 ∨ k = 2) as [-> | [-> | ->]] by lia;
    injection Hl as <-; vm_compute in Hend; by destruct Hend.
Qed.

Lemma select_env_Some line env :
  select_env line = Some env →
  env ∈ numbered_envs ∧ occurs (begin_marker env) line.
Proof.
  unfold select_env. intros [Hin Hbegin]%find_some.
  split; [by apply list_elem_of_In|].
  apply bool_decide_eq_true in Hbegin. by apply search_lit in Hbegin.
Qed.



(** C4: an equation is only ever returned for a line in which the exact
    begin-marker of one of the seven environment names occurs; a text
    without such a line yields no equation at all; and the begin-marker of
    a starred form contains the exact begin-marker of none of them. *)
Theorem C4_starred_not_matched :
  (∀ content b,
     b ∈ extract_numbered_equations content →
     ∃ line env,
       Py.split Py.newline content !! (start_line b - 1) = Some line
       ∧ env ∈ numbered_envs ∧ occurs (begin_marker env) line)
  ∧ (∀ content,
       (∀ line env, line ∈ Py.split Py.newline content →
                    env ∈ numbered_envs → ¬ occurs (begin_marker env) line) →
       extract_numbered_equations content = [])
  ∧ (∀ env env', env ∈ numbered_envs → env' ∈ numbered_envs →
                 ¬ occurs (begin_marker env) (starred_marker env')).
Proof.
  split_and!.
  - intros content b (i & j & line & env & -> & Hline & Henv & _)%equation_block.
    apply select_env_Some in Henv as [Hin Hocc].
    exists line, env. by replace (S i - 1) with i by lia.
  - intros content Hnone.
    destruct (extract_numbered_equations content) as [|b bs] eqn:Hb; [done|].
    assert (Hin : b ∈ extract_numbered_equations content) by (rewrite Hb; left).
    apply equation_block in Hin as (i & j & line & env & _ & Hline & Henv & _).
    apply select_env_Some in Henv as [Hin Hocc].
    destruct (Hnone line env); [by eapply list_elem_of_lookup_2|done..].
  - intros env env' Hin Hin' Hocc%search_lit.
    apply list_elem_of_In in Hin, Hin'. vm_compute in Hin, Hin'.
    repeat (destruct Hin as [<-|Hin]; [|]); try done;
      repeat (destruct Hin' as [<-|Hin']; [|]); try done;
      vm_compute in Hocc; by destruct Hocc.
Qed.

Lemma C4_witness :
  extract_numbered_equations starred_only = []
  ∧ ∃ line env,
      Py.split Py.newline two_labels !! 0 = Some line
      ∧ env ∈ numbered_envs ∧ occurs (begin_marker env) line.
Proof.
  destruct C4_starred_not_matched as (Hblock & Hnone & Hstar). split.
  - apply Hnone. intros line env Hline Henv Hocc%search_lit.
    apply list_elem_of_In in Hline, Henv. vm_compute in Hline, Henv.
    repeat (destruct Hline as [<-|Hline]; [|]); try done;
      repeat (destruct Henv as [<-|Henv]; [|]); try done;
      vm_compute in Hocc; by destruct Hocc.
  - apply (Hblock two_labels (1, two_labels, Some (py "y"))). vm_compute. left.
Defined.

(** C6, as the code has it: when neither the line of a begin-marker nor any
    later line contains the end-marker of the same environment, no equation
    is recorded for that environment; an equation that starts at that line,
    if there is one, belongs to another environment whose begin-marker is
    on the same line.  The result is a plain list, nothing is raised. *)
Theorem C6_unterminated_dropped (content line env : str) (i : nat) :
  Py.split Py.newline content !! i = Some line →
  occurs (begin_marker env) line →
  (∀ j l, i ≤ j → Py.split Py.newline content !! j = Some l →
          ¬ occurs (end_marker env) l) →
  ∀ b, b ∈ extract_numbered_equations content → start_line b = S i →
       ∃ env', env' ≠ env ∧ select_env line = Some env'.
Proof.
  intros Hline Hbegin Hopen b
    (i' & j & line' & env' & -> & Hline' & Henv' & Hj & _)%equation_block [= ->].
  rewrite Hline in Hline'. injection Hline' as <-.
  exists env'. split; [|done]. intros ->.
  destruct Hj as (Hle & (l & Hl & Hend) & _).
  apply (Hopen j l); [done..|]. by apply search_lit in Hend.
Qed.

Lemma C6_witness :
  extract_numbered_equations unterminated = []
  ∧ ∀ b, b ∈ extract_numbered_equations unterminated → start_line b = 1 →
         ∃ env', env' ≠ py "equation"
                 ∧ select_env (py "\begin{equation}") = Some env'.
Proof.
  split; [reflexivity|].
  apply (C6_unterminated_dropped unterminated (py "\begin{equation}")
           (py "equation") 0); [reflexivity|by exists [], []|].
  intros j l _ Hl Hend%search_lit.
  destruct j as [|[|j]]; [| |done]; injection Hl as <-;
    vm_compute in Hend; by destruct Hend.
Defined.

(** The claim as the specification words it fails when the end-marker
    stands before the begin-marker on the same line: nothing closes the
    environment, yet the line is recorded as an equation. *)
Lemma C6_counterexample :
  ∃ pre post env b,
    env ∈ numbered_envs
    ∧ end_before_begin = pre ++ begin_marker env ++ post
    ∧ ¬ occurs (end_marker env) post
    ∧ b ∈ extract_numbered_equations end_before_begin
    ∧ start_line b = S (line_of pre).
Proof.
  exists (py "\end{equation} "), [], (py "equation"),
         (1, end_before_begin, None).
  split_and!; [vm_compute; left|reflexivity| |vm_compute; left|reflexivity].
  intros (a & c & Hnil). symmetry in Hnil.
  apply app_eq_nil in Hnil as [_ Hnil]. by apply app_eq_nil in Hnil as [Hnil _].
Qed.

Lemma unreferenced_iff references b :
  unreferenced references b ↔
  label b = None ∨ ∃ l, label b = Some l ∧ l ∉ references.
Proof.
  unfold unreferenced. destruct (label b) as [l|]; split.
  - intros Hl. right. by exists l.
  - by intros [?|(l' & [= <-] & ?)].
  - by left.
  - done.
Qed.

Lemma same_start_line (equations : list equation) b b' :
  NoDup (start_line <$> equations) →
  b' ∈ equations → b ∈ equations → start_line b' = start_line b → b' = b.
Proof.
  intros Hnodup Hb' Hb Hstart.
  induction equations as [|e es IH]; [by apply elem_of_nil in Hb|].
  rewrite fmap_cons in Hnodup. apply NoDup_cons in Hnodup as [Hnot Hnodup].
  apply elem_of_cons in Hb as [->|Hb], Hb' as [->|Hb']; [done| | |by apply IH].
  - destruct Hnot. rewrite <- Hstart. by apply list_elem_of_fmap_2.
  - destruct Hnot. rewrite Hstart. by apply list_elem_of_fmap_2.
Qed.

(** C5: an extracted equation is in the list of unreferenced equations
    exactly when it has no label or its label is not in the reference set;
    the list keeps the equations in the order of the document. *)
Theorem C5_unreferenced_equations (no_such_file : str → str)
    (path content : str) (w : world) :
  files w !! path = Some (Text content) →
  let equations := extract_numbered_equations content in
  let references := extract_references content in
  ∃ out w',
    find_unreferenced_equations no_such_file path w = (Return out, w')
    ∧ out = listed <$> filter (unreferenced references) equations
    ∧ out `sublist_of` (listed <$> equations)
    ∧ ∀ b, b ∈ equations →
           (listed b ∈ out ↔
            label b = None ∨ ∃ l, label b = Some l ∧ l ∉ references).
Proof.
  intros Hfile equations references. eexists _, _. split_and!.
  - by apply find_unreferenced_equations_Text.
  - apply keep_unreferenced_filter.
  - rewrite keep_unreferenced_filter. apply fmap_sublist, sublist_filter.
  - intros b Hb. rewrite keep_unreferenced_filter, <- unreferenced_iff.
    rewrite list_elem_of_fmap. split.
    + intros (b' & Hlisted & [Hunref Hb']%list_elem_of_filter).
      assert (Hsame : b' = b); [|by subst b'].
      apply (same_start_line (extract_numbered_equations content));
        [apply start_lines_NoDup|done..|by injection Hlisted].
    + intros Hunref. exists b. split; [done|]. by apply list_elem_of_filter.
Qed.

Lemma C5_witness :
  ∃ out w',
    find_unreferenced_equations errno2 (py "a.tex")
      (one_file (py "a.tex") three_equations) = (Return out, w')
    ∧ out = listed <$> filter (unreferenced (extract_references three_equations))
                         (extract_numbered_equations three_equations)
    ∧ out `sublist_of` (listed <$> extract_numbered_equations three_equations)
    ∧ ∀ b, b ∈ extract_numbered_equations three_equations →
           (listed b ∈ out ↔
            label b = None
            ∨ ∃ l, label b = Some l ∧ l ∉ extract_references three_equations).
Proof.
  apply (C5_unreferenced_equations errno2 (py "a.tex") three_equations
           (one_file (py "a.tex") three_equations)).
  reflexivity.
Defined.

(** On the sample: the labelled equation nobody cites and the one without
    label are listed, in that order; the cited one is not. *)
Example unreferenced_of_three_equations :
  keep_unreferenced (extract_references three_equations)
                    (extract_numbered_equations three_equations)
  = [(1, py "\begin{equation}\label{p}\end{equation}");
     (2, py "\begin{gather} x \end{gather}")].
Proof. vm_compute. reflexivity. Qed.

(** ** Comments *)

Lemma label_after_closed pre x post :
  closed pre → x ≠ [] → ch "}" ∉ x →
  x ∈ extract_labels (pre ++ py "\label{" ++ x ++ py "}" ++ post).
Proof.
  intros Hpre Hx Hnot. apply elem_of_list_to_set.
  apply (findall_command label_pattern Outside pre
           (py "label{" ++ x ++ py "}" ++ post) x post); [done..|].
  by apply (match_label x post).
Qed.

Lemma reference_after_closed cmd pre arg post :
  cmd ∈ ref_commands → closed pre → arg ≠ [] → ch "}" ∉ arg →
  arg ∈ Re.findall ref_pattern
          (pre ++ py "\" ++ cmd ++ py "{" ++ arg ++ py "}" ++ post).
Proof.
  intros Hcmd Hpre Harg Hnot.
  apply (findall_command ref_pattern Outside pre
           (cmd ++ py "{" ++ arg ++ py "}" ++ post) arg post); [done..|].
  by apply (match_ref cmd arg post).
Qed.




(** * Further properties of the script *)

(** ** The command line and the files *)

Section MoreRuns.

Variable with_suffix_txt : str → str.
Variable no_such_file : str → str.

Lemma reads_app evs1 evs2 : reads (evs1 ++ evs2) = reads evs1 ++ reads evs2.
Proof. apply omap_app. Qed.


Lemma main_usage argv w :
  length argv ≠ 2 →
  main with_suffix_txt no_such_file argv w = (SysExit 1, log (Print usage) w).
Proof.
  intros Hlen. destruct argv as [|a [|b [|c argv]]]; try reflexivity.
  by destruct Hlen.
Qed.


(** X1: with any number of command-line words other than two (the script
    name and one path), the run prints the usage line and nothing else,
    ends with status 1, and reads and writes no file. *)
Theorem X1_usage_error (argv : list str) (w : world) :
  length argv ≠ 2 →
  let run := main with_suffix_txt no_such_file argv w in
  run.1 = SysExit 1
  ∧ exit_status run.1 = 1
  ∧ files run.2 = files w
  ∧ new_events w run.2 = [Print usage].
Proof.
  intros Hlen run. unfold run. rewrite main_usage by done.
  unfold new_events. simpl. by rewrite drop_app_length.
Qed.

(** X2: when the path exists but cannot be read as text (a directory, no
    permission, bytes that are not UTF-8), the exception of the first read
    is caught: the run prints "Error processing file: " followed by the
    text of the exception as its last line, ends with status 1, has read
    once and written nothing. *)
Theorem X2_unreadable_input (prog path error : str) (w : world) :
  files w !! path = Some (Unreadable error) →
  let run := main with_suffix_txt no_such_file [prog; path] w in
  run.1 = SysExit 1
  ∧ files run.2 = files w
  ∧ reads (new_events w run.2) = [path]
  ∧ writes (new_events w run.2) = []
  ∧ last (new_events w run.2)
    = Some (Print (py "Error processing file: " ++ error)).
Proof.
  intros Hfile run. unfold run.
  rewrite (main_Unreadable _ _ prog path error) by done.
  unfold new_events. cbn [fst snd files events]. rewrite drop_app_length.
  destruct (Py.endswith _ _); by split_and!.
Qed.





(** X7: on a readable text file the run starts with the extension warning
    exactly when the path, lowercased, does not end in [.tex]; with or
    without it, the file is then read. *)
Theorem X7_extension_warning (prog path content : str) (w : world) :
  files w !! path = Some (Text content) →
  let run := main with_suffix_txt no_such_file [prog; path] w in
  (head (new_events w run.2) = Some (Print extension_warning)
   ↔ Py.endswith (Py.lower path) (py ".tex") = false)
  ∧ reads (new_events w run.2) = [path; path].
Proof.
  intros Hfile run. unfold run.
  destruct (main_Text with_suffix_txt no_such_file prog path content w Hfile)
    as (summary & [Hr Hw]%reads_prints & ->).
  unfold new_events.
  destruct (files w !! with_suffix_txt path) as [[text|error]|];
    cbn [fst snd files events]; rewrite drop_app_length;
    destruct (Py.endswith _ _); cbn [app head];
    (split; [by split|]);
    rewrite ?reads_app;
    try change (reads (Print ?t :: ?l)) with (reads l);
    try change (reads (Read path :: Read path :: Write ?o ?t :: summary))
      with (path :: path :: reads summary);
    by rewrite ?Hr.
Qed.

End MoreRuns.

Lemma X1_witness :
  let run := main append_txt errno2 [script] (one_file (py "a.tex") padded_label) in
  run.1 = SysExit 1
  ∧ exit_status run.1 = 1
  ∧ files run.2 = files (one_file (py "a.tex") padded_label)
  ∧ new_events (one_file (py "a.tex") padded_label) run.2 = [Print usage].
Proof.
  apply (X1_usage_error append_txt errno2 [script]
           (one_file (py "a.tex") padded_label)).
  simpl. lia.
Defined.

Lemma X2_witness :
  let w := one_node (py "figures") (Unreadable is_a_directory) in
  let run := main append_txt errno2 [script; py "figures"] w in
  run.1 = SysExit 1
  ∧ files run.2 = files w
  ∧ reads (new_events w run.2) = [py "figures"]
  ∧ writes (new_events w run.2) = []
  ∧ last (new_events w run.2)
    = Some (Print (py "Error processing file: " ++ is_a_directory)).
Proof.
  apply (X2_unreadable_input append_txt errno2 script (py "figures")
           is_a_directory (one_node (py "figures") (Unreadable is_a_directory))).
  reflexivity.
Defined.





Lemma X7_witness :
  let w := one_file (py "notes.txt") padded_label in
  let run := main append_txt errno2 [script; py "notes.txt"] w in
  (head (new_events w run.2) = Some (Print extension_warning)
   ↔ Py.endswith (Py.lower (py "notes.txt")) (py ".tex") = false)
  ∧ reads (new_events w run.2) = [py "notes.txt"; py "notes.txt"].
Proof.
  apply (X7_extension_warning append_txt errno2 script (py "notes.txt")
           padded_label (one_file (py "notes.txt") padded_label)).
  reflexivity.
Defined.

(** ** The list of unreferenced labels *)

Section Order.

Lemma le_total a b : Py.le a b = true ∨ Py.le b a = true.
Proof.
  revert b. induction a as [|x a IH]; intros [|y b]; simpl; auto.
  destruct (N.ltb_spec x y), (N.ltb_spec y x), (N.eqb_spec x y),
    (N.eqb_spec y x); simpl; auto; try lia.
Qed.

Lemma le_trans a b c : Py.le a b = true → Py.le b c = true → Py.le a c = true.
Proof.
  revert b c. induction a as [|x a IH]; intros [|y b] [|z c]; simpl; try done.
  destruct (N.ltb_spec x y), (N.ltb_spec y z), (N.ltb_spec x z),
    (N.eqb_spec x y), (N.eqb_spec y z), (N.eqb_spec x z);
    simpl; try done; try lia.
  apply IH.
Qed.

#[local] Instance le_rel_total : Total Py.le_rel.
Proof. intros a b. apply le_total. Qed.

#[local] Instance le_rel_trans : Transitive Py.le_rel.
Proof. intros a b c. apply le_trans. Qed.

Lemma sorted_StronglySorted l : StronglySorted Py.le_rel (Py.sorted l).
Proof. apply StronglySorted_merge_sort; apply _. Qed.

Lemma sorted_NoDup (X : gset str) : NoDup (Py.sorted (elements X)).
Proof.
  unfold Py.sorted. rewrite merge_sort_Permutation. apply NoDup_elements.
Qed.

End Order.

(** X8: the list [find_unreferenced_labels] returns for a readable file is
    in ascending order of code points, has no duplicates, and holds a name
    exactly when the text declares it and no reference command cites it;
    the function reads the file once and changes no file. *)
Theorem X8_unreferenced_labels_sorted (no_such_file : str → str)
    (path content : str) (w : world) :
  files w !! path = Some (Text content) →
  ∃ out w',
    find_unreferenced_labels no_such_file path w = (Return out, w')
    ∧ StronglySorted Py.le_rel out
    ∧ NoDup out
    ∧ (∀ l, l ∈ out ↔ l ∈ extract_labels content ∧ l ∉ extract_references content)
    ∧ files w' = files w
    ∧ new_events w w' = [Read path].
Proof.
  intros Hfile. eexists _, _. split_and!.
  - by apply find_unreferenced_labels_Text.
  - apply sorted_StronglySorted.
  - apply sorted_NoDup.
  - intros l. by rewrite elem_of_sorted_elements, elem_of_difference.
  - done.
  - unfold new_events, log. simpl. by rewrite drop_app_length.
Qed.

Lemma X8_witness :
  ∃ out w',
    find_unreferenced_labels errno2 (py "a.tex")
      (one_file (py "a.tex") padded_label) = (Return out, w')
    ∧ StronglySorted Py.le_rel out
    ∧ NoDup out
    ∧ (∀ l, l ∈ out ↔ l ∈ extract_labels padded_label
                       ∧ l ∉ extract_references padded_label)
    ∧ files w' = files (one_file (py "a.tex") padded_label)
    ∧ new_events (one_file (py "a.tex") padded_label) w' = [Read (py "a.tex")].
Proof.
  apply (X8_unreferenced_labels_sorted errno2 (py "a.tex") padded_label
           (one_file (py "a.tex") padded_label)).
  reflexivity.
Defined.

(** ** What the patterns match *)

Section Inversion.

Import Re.

Lemma orelse_Some a b m : orelse a b = Some m → a = Some m ∨ b = Some m.
Proof. destruct a; simpl; auto. Qed.

Lemma run_chr_inv c s cap k m :
  run (Chr c) s cap k = Some m → ∃ t, s = c :: t ∧ k t cap = Some m.
Proof.
  simpl. destruct s as [|d s]; [done|].
  destruct (N.eqb_spec d c) as [->|]; [|done]. by exists s.
Qed.

Lemma plus_not_char_inv (cb : char) n s cap (k : cont) m :
  plus_loop (run (NotChr cb)) n s cap k = Some m →
  ∃ g rest, g ≠ [] ∧ (cb ∉ g) ∧ s = g ++ rest ∧ k rest cap = Some m.
Proof.
  revert s. induction n as [|n IH]; intros s; simpl; [done|].
  destruct s as [|d s]; [done|].
  destruct (N.eqb_spec d cb) as [|Hd]; [done|].
  intros [Hloop|Hk]%orelse_Some.
  - destruct (decide _); [|done].
    apply IH in Hloop as (g & rest & _ & Hnot & -> & Hk).
    exists (d :: g), rest. split_and!; [done| |done..].
    by apply not_elem_of_cons.
  - exists [d], s. split_and!; [done| |done..].
    apply not_elem_of_cons. split; [done|apply not_elem_of_nil].
Qed.

(** The argument of a command: not empty, up to the first closing brace. *)
Lemma run_argument_inv s cap k m :
  run argument s cap k = Some m →
  ∃ g rest, g ≠ [] ∧ (ch "}" ∉ g) ∧ s = g ++ ch "}" :: rest
            ∧ k rest (Some g) = Some m.
Proof.
  change (run argument s cap k) with
    (plus_loop (run (NotChr (ch "}"))) (S (length s)) s cap
       (λ s' _, run (Chr (ch "}")) s' (Some (take (length s - length s') s)) k)).
  intros (g & rest0 & Hg & Hnot & -> & (rest & -> & Hk)%run_chr_inv)
    %plus_not_char_inv.
  exists g, rest. split_and!; [done..|].
  rewrite length_app in Hk.
  replace (_ - _) with (length g) in Hk by lia.
  by rewrite take_app_length in Hk.
Qed.

Lemma match_label_inv s m :
  match_at label_pattern s = Some m →
  ∃ g, g ≠ [] ∧ (ch "}" ∉ g) ∧ m = (Some g, m.2)
       ∧ s = py "\label{" ++ g ++ py "}" ++ m.2.
Proof.
  unfold match_at.
  change (run label_pattern ?s ?c ?k) with
    (run (lit (py "\label{")) s c (λ s' c', run argument s' c' k)).
  intros (t & -> & (g & rest & Hg & Hnot & -> & [= <-])%run_argument_inv)
    %run_lit_inv.
  by exists g.
Qed.

(** The head of a reference command. *)
Lemma run_ref_head_inv s cap k m :
  run_ref_head s cap k = Some m →
  ∃ cmd t, cmd ∈ ref_commands ∧ s = ch "\" :: cmd ++ ch "{" :: t
           ∧ k t cap = Some m.
Proof.
  unfold run_ref_head.
  intros (s1 & -> & Hopt)%run_chr_inv.
  assert (Htail : ∀ prefix t c,
    prefix ∈ [py "eq"; py "C"; py "c"; py "auto"; py "name"; py "page"; []] →
    run (OneOf [ch "R"; ch "r"]) t c (λ s3 c3,
      run (lit (py "ef")) s3 c3 (λ s4 c4,
        run (Opt (Chr (ch "*"))) s4 c4 (λ s5 c5,
          run (Chr (ch "{")) s5 c5 k))) = Some m →
    ∃ cmd t', cmd ∈ ref_commands ∧ prefix ++ t = cmd ++ ch "{" :: t'
              ∧ k t' c = Some m).
  { intros prefix t c Hprefix. cbn [run].
    destruct t as [|d t]; [done|].
    destruct (existsb (N.eqb d) [ch "R"; ch "r"]) eqn:Hd; [|done].
    apply existsb_exists in Hd as (r & Hr & <-%N.eqb_eq).
    intros (t4 & -> & [Hstar|Hplain]%orelse_Some)%run_lit_inv.
    - destruct t4 as [|d4 t4]; [done|].
      destruct (N.eqb_spec d4 (ch "*")) as [->|]; [|done].
      destruct t4 as [|d5 t']; [done|].
      destruct (N.eqb_spec d5 (ch "{")) as [->|]; [|done]. rename Hstar into Hk.
      exists (prefix ++ [d] ++ py "ef" ++ py "*"), t'.
      split_and!; [|by rewrite <- !app_assoc|done].
      apply list_elem_of_bind. exists prefix. split; [|done].
      apply list_elem_of_bind. exists [d]. split;
        [|by destruct Hr as [<-|[<-|[]]]; [left|right; left]].
      apply list_elem_of_bind. exists (py "*"). split; [left|right; left].
    - destruct t4 as [|d4 t']; [done|].
      destruct (N.eqb_spec d4 (ch "{")) as [->|]; [|done]. rename Hplain into Hk.
      exists (prefix ++ [d] ++ py "ef" ++ []), t'.
      split_and!; [|by rewrite <- !app_assoc|done].
      apply list_elem_of_bind. exists prefix. split; [|done].
      apply list_elem_of_bind. exists [d]. split;
        [|by destruct Hr as [<-|[<-|[]]]; [left|right; left]].
      apply list_elem_of_bind. exists []. split; [left|left]. }
  assert (Hlit : ∀ prefix,
    prefix ∈ [py "eq"; py "C"; py "c"; py "auto"; py "name"; py "page"; []] →
    run (lit prefix) s1 cap (λ s2 c2,
      run (OneOf [ch "R"; ch "r"]) s2 c2 (λ s3 c3,
        run (lit (py "ef")) s3 c3 (λ s4 c4,
          run (Opt (Chr (ch "*"))) s4 c4 (λ s5 c5,
            run (Chr (ch "{")) s5 c5 k)))) = Some m →
    ∃ cmd t, cmd ∈ ref_commands ∧ ch "\" :: s1 = ch "\" :: cmd ++ ch "{" :: t
             ∧ k t cap = Some m).
  { intros prefix Hprefix (t & -> & Ht)%run_lit_inv.
    apply (Htail prefix) in Ht as (cmd & t' & Hcmd & -> & Hk); [|done].
    by exists cmd, t'. }
  cbn [run] in Hopt.
  repeat (apply orelse_Some in Hopt as [Hopt|Hopt]);
    first [ by apply (Hlit (py "eq")); [repeat constructor|]
          | by apply (Hlit (py "C")); [repeat constructor|]
          | by apply (Hlit (py "c")); [repeat constructor|]
          | by apply (Hlit (py "auto")); [repeat constructor|]
          | by apply (Hlit (py "name")); [repeat constructor|]
          | by apply (Hlit (py "page")); [repeat constructor|]
          | by apply (Hlit []); [repeat constructor|] ].
Qed.

Lemma match_ref_inv s m :
  match_at ref_pattern s = Some m →
  ∃ cmd g, cmd ∈ ref_commands ∧ g ≠ [] ∧ (ch "}" ∉ g) ∧ m = (Some g, m.2)
           ∧ s = py "\" ++ cmd ++ py "{" ++ g ++ py "}" ++ m.2.
Proof.
  unfold match_at.
  change (run ref_pattern ?s ?c ?k) with
    (run_ref_head s c (λ s' c', run argument s' c' k)).
  intros (cmd & t & Hcmd & -> &
          (g & rest & Hg & Hnot & -> & [= <-])%run_argument_inv)%run_ref_head_inv.
  by exists cmd, g.
Qed.

(** What [findall] returns comes from a match at some position. *)
Lemma findall_from_elem r n s g :
  g ∈ findall_from r n s →
  ∃ a t m, s = a ++ t ∧ match_at r t = Some m ∧ group1 m = g.
Proof.
  revert n. induction s as [|c s IH]; intros n.
  - destruct n; simpl; [|by intros []%elem_of_nil].
    destruct (match_at r []) as [m|] eqn:Hm; [|by intros []%elem_of_nil].
    intros [->|[]%elem_of_nil]%elem_of_cons. by exists [], [], m.
  - assert (Htail : ∀ n', g ∈ findall_from r n' s →
      ∃ a t m, c :: s = a ++ t ∧ match_at r t = Some m ∧ group1 m = g).
    { intros n' (a & t & m & -> & Hm & Hg)%IH. by exists (c :: a), t, m. }
    destruct n; simpl; [|apply Htail].
    destruct (match_at r (c :: s)) as [m|] eqn:Hm; [|apply Htail].
    intros [->|Hin]%elem_of_cons; [by exists [], (c :: s), m|by eapply Htail].
Qed.

End Inversion.

Section Pieces.

Lemma split_elem sep s piece c :
  piece ∈ Py.split sep s → c ∈ piece → c ∈ s ∧ c ≠ sep.
Proof.
  revert piece. induction s as [|d s IH]; intros piece; simpl.
  - intros [->|[]%elem_of_nil]%elem_of_cons []%elem_of_nil.
  - destruct (N.eqb_spec d sep) as [->|Hd].
    + intros [->|Hin]%elem_of_cons Hc; [by apply elem_of_nil in Hc|].
      destruct (IH piece Hin Hc). split; [by right|done].
    + destruct (Py.split sep s) as [|p ps] eqn:Hsplit.
      * intros [->|[]%elem_of_nil]%elem_of_cons [->|[]%elem_of_nil]%elem_of_cons.
        split; [left|done].
      * intros [->|Hin]%elem_of_cons Hc.
        -- apply elem_of_cons in Hc as [->|Hc]; [split; [left|done]|].
           destruct (IH p) as [? ?]; [left|done|]. split; [by right|done].
        -- destruct (IH piece) as [? ?]; [by right|done|]. split; [by right|done].
Qed.

Lemma lstrip_elem s c : c ∈ Py.lstrip s → c ∈ s.
Proof.
  destruct (lstrip_suffix s) as [a Ha]. intros Hc. rewrite Ha.
  apply elem_of_app. by right.
Qed.

Lemma strip_elem s c : c ∈ Py.strip s → c ∈ s.
Proof.
  unfold Py.strip, Py.rstrip. rewrite elem_of_reverse.
  intros Hc%lstrip_elem. rewrite elem_of_reverse in Hc. by apply lstrip_elem.
Qed.

End Pieces.

(** X9: every name [extract_labels] returns is written in the text as the
    argument of a label command: it is not empty, holds no closing brace,
    and the command with that very argument occurs in the text.  An empty
    argument declares nothing. *)
Theorem X9_labels_are_declared (content l : str) :
  l ∈ extract_labels content →
  l ≠ [] ∧ (ch "}" ∉ l) ∧ occurs (py "\label{" ++ l ++ py "}") content.
Proof.
  intros (a & t & m & -> & (g & Hg & Hnot & -> & ->)%match_label_inv & <-)
    %elem_of_list_to_set%findall_from_elem.
  split_and!; [done..|]. exists a, m.2. by rewrite <- !app_assoc.
Qed.

Lemma X9_witness :
  py "x" ≠ [] ∧ (ch "}" ∉ py "x")
  ∧ occurs (py "\label{" ++ py "x" ++ py "}") two_labels.
Proof.
  apply (X9_labels_are_declared two_labels (py "x")).
  apply elem_of_list_to_set. vm_compute. left.
Defined.

(** X10: a label command whose argument is not empty and holds no closing
    brace is declared wherever it stands, as long as the text before it
    leaves no brace open; the argument may hold anything else, opening
    braces, backslashes and line breaks included. *)
Theorem X10_label_after_closed_text (pre x post : str) :
  closed pre → x ≠ [] → ch "}" ∉ x →
  x ∈ extract_labels (pre ++ py "\label{" ++ x ++ py "}" ++ post).
Proof. apply label_after_closed. Qed.

Lemma X10_witness :
  py "a{b" ∈ extract_labels (py "see {this} " ++ py "\label{" ++ py "a{b"
                             ++ py "}" ++ py "c}").
Proof.
  apply (X10_label_after_closed_text (py "see {this} ") (py "a{b") (py "c}"));
    [reflexivity|done|].
  vm_compute. intros Hin. repeat (apply elem_of_cons in Hin as [[=]|Hin]).
  by apply elem_of_nil in Hin.
Defined.

(** X11: every name [extract_references] returns comes from a reference
    command written in the text: one of the accepted command names, an
    argument that is not empty and holds no closing brace, and the name is
    one comma-separated piece of that argument, stripped.  So a reference
    holds no comma and no closing brace and neither starts nor ends with
    whitespace. *)
Theorem X11_references_are_cited (content r : str) :
  r ∈ extract_references content →
  (∃ cmd arg piece,
     cmd ∈ ref_commands
     ∧ occurs (py "\" ++ cmd ++ py "{" ++ arg ++ py "}") content
     ∧ arg ≠ [] ∧ (ch "}" ∉ arg)
     ∧ piece ∈ Py.split Py.comma arg ∧ r = Py.strip piece)
  ∧ (Py.comma ∉ r) ∧ (ch "}" ∉ r)
  ∧ ∀ c, head r = Some c ∨ last r = Some c → Py.isspace c = false.
Proof.
  intros (arg & piece & Harg & Hpiece & ->)%elem_of_extract_references.
  apply findall_from_elem in Harg
    as (a & t & m & -> & (cmd & g & Hcmd & Hg & Hnot & -> & ->)%match_ref_inv & <-).
  simpl in Hpiece. split_and!.
  - exists cmd, g, piece. split_and!; try done.
    exists a, m.2. by rewrite <- !app_assoc.
  - intros Hc%strip_elem. by destruct (split_elem _ _ _ _ Hpiece Hc).
  - intros Hc%strip_elem. by destruct (split_elem _ _ _ _ Hpiece Hc).
  - intros c [Hc|Hc]; [by eapply strip_head|by eapply strip_last].
Qed.

Lemma X11_witness :
  (∃ cmd arg piece,
     cmd ∈ ref_commands
     ∧ occurs (py "\" ++ cmd ++ py "{" ++ arg ++ py "}") two_references
     ∧ arg ≠ [] ∧ (ch "}" ∉ arg)
     ∧ piece ∈ Py.split Py.comma arg ∧ py "b" = Py.strip piece)
  ∧ (Py.comma ∉ py "b") ∧ (ch "}" ∉ py "b")
  ∧ ∀ c, head (py "b") = Some c ∨ last (py "b") = Some c → Py.isspace c = false.
Proof.
  apply (X11_references_are_cited two_references (py "b")).
  apply (elem_of_extract_references two_references (py "b")).
  exists (py "a, b"), (py " b"). vm_compute. split_and!; repeat constructor.
Defined.

(** X12: a reference command with one of the accepted names, after a text
    that leaves no brace open, cites every comma-separated piece of its
    argument: each piece, stripped, is in the reference set. *)
Theorem X12_reference_after_closed_text (cmd pre arg post piece : str) :
  cmd ∈ ref_commands → closed pre → arg ≠ [] → ch "}" ∉ arg →
  piece ∈ Py.split Py.comma arg →
  Py.strip piece
  ∈ extract_references (pre ++ py "\" ++ cmd ++ py "{" ++ arg ++ py "}" ++ post).
Proof.
  intros Hcmd Hpre Harg Hnot Hpiece.
  apply elem_of_extract_references. exists arg, piece. split_and!; [|done..].
  by apply reference_after_closed.
Qed.

Lemma X12_witness :
  Py.strip (py " eq:b ")
  ∈ extract_references (py "by {1} " ++ py "\" ++ py "eqref*" ++ py "{"
                        ++ py "eq:a, eq:b " ++ py "}" ++ py ".").
Proof.
  apply (X12_reference_after_closed_text (py "eqref*") (py "by {1} ")
           (py "eq:a, eq:b ") (py ".") (py " eq:b ")).
  - vm_compute. repeat constructor.
  - reflexivity.
  - done.
  - vm_compute. intros Hin. repeat (apply elem_of_cons in Hin as [[=]|Hin]).
    by apply elem_of_nil in Hin.
  - vm_compute. repeat constructor.
Defined.

(** ** Order and extent of the equations *)

Section Extent.

Lemma closes_unique lines env i j j' :
  closes lines env i j → closes lines env i j' → j = j'.
Proof.
  intros (Hij & (l & Hl & Hend) & Hfirst) (Hij' & (l' & Hl' & Hend') & Hfirst').
  destruct (decide (j < j')); [by destruct (Hfirst' j l)|].
  destruct (decide (j' < j)); [by destruct (Hfirst j' l')|]. lia.
Qed.

Lemma collect_closes lines env i j equation_lines lbl :
  collect env (drop i lines) i [] None = Some (j, equation_lines, lbl) →
  closes lines env i j.
Proof.
  intros (k & -> & (l & Hl & Hend) & Hbefore & _)%collect_Some.
  rewrite lookup_drop in Hl. split_and!; [lia|by exists l|].
  intros k' l' Hk' Hl'. apply (Hbefore (k' - i) l'); [lia|].
  rewrite lookup_drop. by replace (i + (k' - i)) with k' by lia.
Qed.

(** An equation found later starts after the last line of one found
    earlier. *)
Lemma scan_no_overlap lines i b1 b2 i1 j1 line1 env1 :
  b1 ∈ scan lines i → b2 ∈ scan lines i →
  start_line b1 < start_line b2 →
  start_line b1 = S i1 → lines !! i1 = Some line1 →
  select_env line1 = Some env1 → closes lines env1 i1 j1 →
  S j1 < start_line b2.
Proof.
  intros Hb1 Hb2 Hlt Hstart Hline1 Henv1 Hj1.
  remember (length lines - i) as n eqn:Hn. revert i Hn Hb1 Hb2.
  induction (lt_wf n) as [n _ IH]; intros i -> Hb1 Hb2.
  rewrite scan_unfold in Hb1, Hb2.
  destruct (lines !! i) as [line|] eqn:Hline; [|by apply elem_of_nil in Hb1].
  pose proof (lookup_lt_Some _ _ _ Hline) as Hlen.
  assert (Hnext : ∀ i2, i < i2 → b1 ∈ scan lines i2 → b2 ∈ scan lines i2 →
                        S j1 < start_line b2).
  { intros i2 Hi2. apply (IH (length lines - i2)); [lia|done]. }
  destruct (select_env line) as [env|] eqn:Henv;
    [|apply (Hnext (S i)); [lia|done..]].
  destruct (collect env (drop i lines) i [] None) as [[[j eql] lbl]|] eqn:Hc;
    [|apply (Hnext (S i)); [lia|done..]].
  pose proof (collect_closes _ _ _ _ _ _ Hc) as Hj.
  assert (Hij : i ≤ j) by apply Hj.
  apply elem_of_cons in Hb1 as [->|Hb1], Hb2 as [->|Hb2].
  - unfold start_line in Hlt. simpl in Hlt. lia.
  - injection Hstart as <-. rewrite Hline in Hline1. injection Hline1 as <-.
    rewrite Henv in Henv1. injection Henv1 as <-.
    rewrite (closes_unique _ _ _ _ _ Hj1 Hj).
    apply scan_elem in Hb2 as (i' & _ & _ & _ & _ & Hi' & -> & _). lia.
  - apply scan_elem in Hb1 as (i' & _ & _ & _ & _ & Hi' & Hs & _).
    unfold start_line in Hlt at 2. simpl in Hlt. lia.
  - apply (Hnext (S j)); [lia|done..].
Qed.

Lemma length_slice (lines : list str) i j :
  j < length lines → length (slice lines i j) = S j - i.
Proof. intros Hj. unfold slice. rewrite length_take, length_drop. lia. Qed.

End Extent.

(** X13: the equations are returned in the order of the document, with
    strictly increasing start lines counted from 1 and within the text, and
    they never overlap: an equation that starts later starts after the
    last line of the one before, so a begin-marker inside a recorded span
    starts no equation of its own. *)
Theorem X13_equations_in_order (content : str) :
  StronglySorted lt (start_line <$> extract_numbered_equations content)
  ∧ (∀ b, b ∈ extract_numbered_equations content →
          1 ≤ start_line b ≤ length (Py.split Py.newline content))
  ∧ (∀ b1 b2 span1,
       b1 ∈ extract_numbered_equations content →
       b2 ∈ extract_numbered_equations content →
       start_line b1 < start_line b2 →
       spans content b1 span1 →
       start_line b1 + length span1 ≤ start_line b2).
Proof.
  split_and!.
  - pose proof (scan_sorted (Py.split Py.newline content) 0) as Hs.
    by apply StronglySorted_inv in Hs as [Hs _].
  - intros b (i & j & line & env & -> & Hline%lookup_lt_Some & _)%equation_block.
    lia.
  - intros b1 b2 span1 Hb1 Hb2 Hlt (i & j & line & env & Hs & Hl & He & Hj & ->).
    pose proof (scan_no_overlap _ 0 b1 b2 i j line env Hb1 Hb2 Hlt Hs Hl He Hj).
    destruct Hj as (Hij & (l & Hlj%lookup_lt_Some & _) & _).
    rewrite length_slice by done. lia.
Qed.

Lemma X13_witness :
  start_line (1, py "\begin{equation}\label{p}\end{equation}", Some (py "p"))
  + length [py "\begin{equation}\label{p}\end{equation}"]
  ≤ start_line (2, py "\begin{gather} x \end{gather}", None).
Proof.
  destruct (X13_equations_in_order three_equations) as (_ & _ & Hapart).
  apply Hapart; [vm_compute; left|vm_compute; right; left|vm_compute; lia|].
  exists 0, 0, (py "\begin{equation}\label{p}\end{equation}"), (py "equation").
  split_and!; [done..| |done].
  split_and!; [lia| |intros k l Hk; lia].
  exists (py "\begin{equation}\label{p}\end{equation}").
  split; [done|vm_compute; eauto].
Defined.

(** ** The text of an equation *)

Section Text.

Lemma occurs_trans a b c : occurs a b → occurs b c → occurs a c.
Proof.
  intros (x & y & ->) (x' & y' & ->). exists (x' ++ x), (y ++ y').
  by rewrite <- !app_assoc.
Qed.

Lemma occurs_reverse tok s : occurs tok s → occurs (reverse tok) (reverse s).
Proof.
  intros (a & c & ->). exists (reverse c), (reverse a).
  by rewrite !reverse_app, <- app_assoc.
Qed.

(** Stripping removes nothing of a token that starts and ends with
    something other than whitespace. *)
Lemma lstrip_occurs tok s c :
  head tok = Some c → Py.isspace c = false →
  occurs tok s → occurs tok (Py.lstrip s).
Proof.
  intros Hhead Hc. induction s as [|d s IH]; simpl; [done|].
  destruct (Py.isspace d) eqn:Hd; [|done].
  intros ([|a0 a] & z & Heq).
  - destruct tok as [|t tok]; [done|]. simpl in *. congruence.
  - injection Heq as -> ->. apply IH. by exists a, z.
Qed.

Lemma strip_occurs tok s c c' :
  head tok = Some c → Py.isspace c = false →
  last tok = Some c' → Py.isspace c' = false →
  occurs tok s → occurs tok (Py.strip s).
Proof.
  intros Hhead Hc Hlast Hc' Hocc. unfold Py.strip, Py.rstrip.
  rewrite <- (reverse_involutive tok). apply occurs_reverse.
  apply (lstrip_occurs _ _ c'); [by rewrite head_reverse|done|].
  apply occurs_reverse. by apply (lstrip_occurs _ _ c).
Qed.

Lemma strip_part s : occurs (Py.strip s) s.
Proof.
  unfold Py.strip, Py.rstrip.
  destruct (lstrip_suffix s) as [a Ha].
  destruct (lstrip_suffix (reverse (Py.lstrip s))) as [a' Ha'].
  exists a, (reverse a').
  assert (Hl : Py.lstrip s
               = reverse (Py.lstrip (reverse (Py.lstrip s))) ++ reverse a').
  { rewrite <- reverse_app, <- Ha'. by rewrite reverse_involutive. }
  by rewrite <- Hl.
Qed.

Lemma join_cons sep p ps :
  ps ≠ [] → Py.join sep (p :: ps) = p ++ sep ++ Py.join sep ps.
Proof. by destruct ps. Qed.

Lemma join_app sep l1 l2 :
  l1 ≠ [] → l2 ≠ [] →
  Py.join sep (l1 ++ l2) = Py.join sep l1 ++ sep ++ Py.join sep l2.
Proof.
  intros Hl1 Hl2. induction l1 as [|p [|q l1] IH]; [done|..].
  - by rewrite (join_cons _ p l2).
  - change ((p :: q :: l1) ++ l2) with (p :: (q :: l1) ++ l2).
    rewrite (join_cons _ p ((q :: l1) ++ l2)) by done.
    rewrite IH by done. rewrite (join_cons _ p (q :: l1)) by done.
    by rewrite <- !app_assoc.
Qed.

Lemma join_part sep l1 mid l2 :
  occurs (Py.join sep mid) (Py.join sep (l1 ++ mid ++ l2)).
Proof.
  destruct mid as [|m mid].
  { exists [], (Py.join sep (l1 ++ l2)). done. }
  assert (Hright : occurs (Py.join sep (m :: mid)) (Py.join sep ((m :: mid) ++ l2))).
  { destruct l2 as [|x l2].
    { rewrite app_nil_r. exists [], []. by rewrite app_nil_r. }
    rewrite join_app by done. by exists [], (sep ++ Py.join sep (x :: l2)). }
  destruct l1 as [|x l1]; [done|].
  rewrite join_app by done.
  destruct Hright as (a & c & ->).
  exists (Py.join sep (x :: l1) ++ sep ++ a), c. by rewrite <- !app_assoc.
Qed.

Lemma join_line sep span line tok :
  line ∈ span → occurs tok line → occurs tok (Py.join sep span).
Proof.
  intros (l1 & l2 & ->)%list_elem_of_split Hocc.
  apply (occurs_trans _ line); [done|].
  apply (join_part sep l1 [line] l2).
Qed.

(** ['\n'.join(s.split('\n')) == s] *)
Lemma join_split sep s : Py.join [sep] (Py.split sep s) = s.
Proof.
  induction s as [|c s IH]; simpl; [done|].
  destruct (N.eqb_spec c sep) as [->|].
  - rewrite join_cons; [by rewrite IH|]. by destruct s; simpl; repeat case_match.
  - destruct (Py.split sep s) as [|p ps] eqn:Hsplit.
    + by destruct s; simpl in *; repeat case_match.
    + destruct ps as [|q ps]; simpl in *; by rewrite <- IH.
Qed.

Lemma slice_part (lines : list str) i j :
  ∃ l1 l2, lines = l1 ++ slice lines i j ++ l2.
Proof.
  exists (take i lines), (drop (S j - i) (drop i lines)).
  unfold slice. by rewrite take_drop, take_drop.
Qed.

End Text.

(** X14: the text recorded for an equation is a contiguous part of the
    document; it holds the begin-marker and the end-marker of one of the
    seven environments, so it is never empty; and it neither starts nor
    ends with whitespace. *)
Theorem X14_equation_text (content : str) (b : equation) :
  b ∈ extract_numbered_equations content →
  occurs (equation_content b) content
  ∧ (∃ env, env ∈ numbered_envs
            ∧ occurs (begin_marker env) (equation_content b)
            ∧ occurs (end_marker env) (equation_content b))
  ∧ equation_content b ≠ []
  ∧ ∀ c, head (equation_content b) = Some c ∨ last (equation_content b) = Some c →
         Py.isspace c = false.
Proof.
  intros (i & j & line & env & _ & Hline & Henv & Hj & -> & _)%equation_block.
  apply select_env_Some in Henv as [Hin Hbegin].
  destruct Hj as (Hij & (l & Hl & Hend%search_lit) & _).
  assert (Hfirst : line ∈ slice (Py.split Py.newline content) i j).
  { apply (list_elem_of_lookup_2 _ 0). unfold slice.
    rewrite lookup_take_lt, lookup_drop by lia. by rewrite Nat.add_0_r. }
  assert (Hlast : l ∈ slice (Py.split Py.newline content) i j).
  { apply (list_elem_of_lookup_2 _ (j - i)). unfold slice.
    rewrite lookup_take_lt, lookup_drop by lia.
    by replace (i + (j - i)) with j by lia. }
  assert (Hb : occurs (begin_marker env)
                 (Py.strip (Py.join [Py.newline]
                    (slice (Py.split Py.newline content) i j)))).
  { apply (strip_occurs _ _ (ch "\") (ch "}")); [done|done| |done|].
    - unfold begin_marker. change (py "}") with [ch "}"].
      by rewrite app_assoc, last_snoc.
    - by apply (join_line _ _ line). }
  split_and!.
  - apply (occurs_trans _ _ _ (strip_part _)).
    rewrite <- (join_split Py.newline content) at 2.
    destruct (slice_part (Py.split Py.newline content) i j) as (l1 & l2 & Heq).
    rewrite Heq at 2. apply join_part.
  - exists env. split_and!; [done..|].
    apply (strip_occurs _ _ (ch "\") (ch "}")); [done|done| |done|].
    + unfold end_marker. change (py "}") with [ch "}"].
      by rewrite app_assoc, last_snoc.
    + by apply (join_line _ _ l).
  - intros Hnil. rewrite Hnil in Hb. destruct Hb as (a & c & Hb).
    symmetry in Hb. apply app_eq_nil in Hb as [_ Hb].
    by apply app_eq_nil in Hb as [Hb _].
  - intros c [Hc|Hc]; [by eapply strip_head|by eapply strip_last].
Qed.

Lemma X14_witness :
  let b := (1, two_labels, Some (py "y")) in
  occurs (equation_content b) two_labels
  ∧ (∃ env, env ∈ numbered_envs
            ∧ occurs (begin_marker env) (equation_content b)
            ∧ occurs (end_marker env) (equation_content b))
  ∧ equation_content b ≠ []
  ∧ ∀ c, head (equation_content b) = Some c ∨ last (equation_content b) = Some c →
         Py.isspace c = false.
Proof.
  apply (X14_equation_text two_labels (1, two_labels, Some (py "y"))).
  vm_compute. left.
Defined.

(** ** Texts without commands *)

Lemma occurs_elem tok s c : occurs tok s → c ∈ tok → c ∈ s.
Proof.
  intros (a & z & ->) Hc. apply elem_of_app. right. apply elem_of_app. by left.
Qed.

(** X15: a text that holds no backslash, the empty text included, declares
    no label, cites none and has no equation; both lists of the report are
    empty. *)
Theorem X15_no_backslash_nothing_found (content : str) :
  ch "\" ∉ content →
  extract_labels content = ∅
  ∧ extract_references content = ∅
  ∧ extract_numbered_equations content = []
  ∧ unreferenced_labels_of content = []
  ∧ unreferenced_equations_of content = [].
Proof.
  intros Hnone.
  assert (Hlabels : extract_labels content = ∅).
  { apply set_eq. intros l. split; [|by intros []%elem_of_empty].
    intros (a & t & m & -> & (g & _ & _ & _ & ->)%match_label_inv & _)
      %elem_of_list_to_set%findall_from_elem.
    destruct Hnone. apply elem_of_app. right. left. }
  assert (Hrefs : extract_references content = ∅).
  { apply set_eq. intros r. split; [|by intros []%elem_of_empty].
    intros (arg & piece & Harg & _)%elem_of_extract_references.
    apply findall_from_elem in Harg
      as (a & t & m & -> & (cmd & g & _ & _ & _ & _ & ->)%match_ref_inv & _).
    destruct Hnone. apply elem_of_app. right. left. }
  assert (Heqs : extract_numbered_equations content = []).
  { destruct (extract_numbered_equations content) as [|b bs] eqn:Hb; [done|].
    assert (Hin : b ∈ extract_numbered_equations content) by (rewrite Hb; left).
    apply equation_block in Hin as (i & j & line & env & _ & Hline & Henv & _).
    apply select_env_Some in Henv as [_ Hocc]. destruct Hnone.
    apply list_elem_of_lookup_2 in Hline.
    apply (split_elem Py.newline content line); [done|].
    apply (occurs_elem _ _ _ Hocc). left. }
  unfold unreferenced_labels_of, unreferenced_equations_of.
  rewrite Hlabels, Hrefs, Heqs. by split_and!.
Qed.

Lemma X15_witness :
  extract_labels (py "100% prose, {braces} and $math$") = ∅
  ∧ extract_references (py "100% prose, {braces} and $math$") = ∅
  ∧ extract_numbered_equations (py "100% prose, {braces} and $math$") = []
  ∧ unreferenced_labels_of (py "100% prose, {braces} and $math$") = []
  ∧ unreferenced_equations_of (py "100% prose, {braces} and $math$") = [].
Proof.
  apply (X15_no_backslash_nothing_found (py "100% prose, {braces} and $math$")).
  vm_compute. intros Hin. repeat (apply elem_of_cons in Hin as [[=]|Hin]).
  by apply elem_of_nil in Hin.
Defined.

(** ** Environments that are never closed *)

Section Open.

Lemma collect_None env rest j acc lbl :
  (∀ l, l ∈ rest → ¬ has_end env l) → collect env rest j acc lbl = None.
Proof.
  revert j acc lbl. induction rest as [|line rest IH]; intros j acc lbl Hopen;
    [done|].
  cbn [collect]. rewrite bool_decide_eq_false_2 by (apply Hopen; left).
  apply IH. intros l Hl. apply Hopen. by right.
Qed.

Lemma collect_None_from (lines : list str) env i :
  (∀ j l, i ≤ j → lines !! j = Some l → ¬ has_end env l) →
  collect env (drop i lines) i [] None = None.
Proof.
  intros Hopen. apply collect_None.
  intros l (k & Hk)%list_elem_of_lookup_1. rewrite lookup_drop in Hk.
  apply (Hopen (i + k) l); [lia|done].
Qed.

(** Lines that start nothing, or something that is never closed, are
    passed over one by one. *)
Lemma scan_skip_open lines i :
  (∀ k l, k < i → lines !! k = Some l →
     select_env l = None
     ∨ ∃ env, select_env l = Some env
              ∧ ∀ j l', k ≤ j → lines !! j = Some l' → ¬ has_end env l') →
  scan lines 0 = scan lines i.
Proof.
  induction i as [|i IH]; intros Hpass; [done|].
  rewrite IH by (intros k l ?; apply Hpass; lia).
  rewrite scan_unfold. destruct (lines !! i) as [l|] eqn:Hl.
  - destruct (Hpass i l) as [->|(env & -> & Hopen)]; [lia|done|done|].
    by rewrite collect_None_from.
  - rewrite scan_unfold. rewrite lookup_ge_None_2; [done|].
    apply lookup_ge_None in Hl. lia.
Qed.

Lemma find_first {A} (f : A → bool) (l : list A) x :
  find f l = Some x →
  ∃ l1 l2, l = l1 ++ x :: l2 ∧ f x = true ∧ ∀ y, y ∈ l1 → f y = false.
Proof.
  induction l as [|a l IH]; simpl; [done|].
  destruct (f a) eqn:Ha.
  - intros [= ->]. exists [], l. split_and!; [done..|]. by intros y []%elem_of_nil.
  - intros (l1 & l2 & -> & Hx & Hl1)%IH. exists (a :: l1), l2.
    split_and!; [done..|]. by intros y [->|?]%elem_of_cons; [|apply Hl1].
Qed.

End Open.

(** X16: an environment that is never closed hides nothing that follows.
    An environment whose end-marker is on its line or a later one is
    returned whenever each earlier line either starts nothing or starts an
    environment that has no end-marker from there on. *)
Theorem X16_unterminated_hides_nothing (content line env : str) (i : nat) :
  Py.split Py.newline content !! i = Some line →
  select_env line = Some env →
  (∃ j l, i ≤ j ∧ Py.split Py.newline content !! j = Some l
          ∧ occurs (end_marker env) l) →
  (∀ k l, k < i → Py.split Py.newline content !! k = Some l →
     select_env l = None
     ∨ ∃ e, select_env l = Some e
            ∧ ∀ j l', k ≤ j → Py.split Py.newline content !! j = Some l' →
                      ¬ occurs (end_marker e) l') →
  ∃ b, b ∈ extract_numbered_equations content ∧ start_line b = S i.
Proof.
  intros Hline Henv (j & l & Hij & Hl & Hend%search_lit) Hpass.
  unfold extract_numbered_equations.
  rewrite (scan_skip_open _ i), scan_unfold, Hline, Henv.
  - destruct (collect_is_Some env (drop i (Py.split Py.newline content)) i [] None)
      as [[[j' eql] lbl] ->].
    + exists l. split; [|done]. apply (list_elem_of_lookup_2 _ (j - i)).
      rewrite lookup_drop. by replace (i + (j - i)) with j by lia.
    + eexists. split; [left|done].
  - intros k l0 Hk Hl0. destruct (Hpass k l0 Hk Hl0) as [?|(e & ? & Hopen)];
      [by left|]. right. exists e. split; [done|].
    intros j' l' Hj' Hl' Hend'%search_lit. by apply (Hopen j' l').
Qed.

Lemma X16_witness :
  ∃ b, b ∈ extract_numbered_equations
             (py "\begin{align}" ++ nl ++ py "\begin{equation} x \end{equation}")
       ∧ start_line b = 2.
Proof.
  apply (X16_unterminated_hides_nothing
           (py "\begin{align}" ++ nl ++ py "\begin{equation} x \end{equation}")
           (py "\begin{equation} x \end{equation}") (py "equation") 1).
  - reflexivity.
  - reflexivity.
  - exists 1, (py "\begin{equation} x \end{equation}").
    split_and!; [lia|reflexivity|].
    by exists (py "\begin{equation} x "), [].
  - intros k l Hk Hl. assert (k = 0) as -> by lia. injection Hl as <-.
    right. exists (py "align"). split; [reflexivity|].
    intros j l' _ Hl' Hend%search_lit.
    destruct j as [|[|j]]; [| |done]; injection Hl' as <-;
      vm_compute in Hend; by destruct Hend.
Defined.

(** X17: the environment tried at a line is the first of the seven names,
    in the order of the list, whose begin-marker occurs in the line,
    wherever in the line the markers stand; no other is tried there.  When
    that one has no end-marker from its line on, no equation starts at the
    line, even if another environment beginning there is closed. *)
Theorem X17_first_listed_environment (content line env : str) (i : nat) :
  Py.split Py.newline content !! i = Some line →
  select_env line = Some env →
  (∃ before after,
     numbered_envs = before ++ env :: after
     ∧ occurs (begin_marker env) line
     ∧ ∀ e, e ∈ before → ¬ occurs (begin_marker e) line)
  ∧ ((∀ j l, i ≤ j → Py.split Py.newline content !! j = Some l →
             ¬ occurs (end_marker env) l) →
     ∀ b, b ∈ extract_numbered_equations content → start_line b ≠ S i).
Proof.
  intros Hline Henv. split.
  - unfold select_env in Henv.
    apply find_first in Henv as (before & after & Heq & Hb & Hbefore).
    exists before, after. split_and!; [done| |].
    + apply bool_decide_eq_true in Hb. by apply search_lit in Hb.
    + intros e He%Hbefore Hocc. apply bool_decide_eq_false in He.
      apply He. by apply search_lit.
  - intros Hopen b
      (i' & j & line' & env' & -> & Hline' & Henv' & Hj & _)%equation_block [= ->].
    rewrite Hline in Hline'. injection Hline' as <-.
    rewrite Henv in Henv'. injection Henv' as <-.
    destruct Hj as (Hle & (l & Hl & Hend%search_lit) & _). by apply (Hopen j l).
Qed.

Lemma X17_witness :
  (∃ before after,
     numbered_envs = before ++ py "equation" :: after
     ∧ occurs (begin_marker (py "equation"))
         (py "\begin{align} x \end{align} \begin{equation}")
     ∧ ∀ e, e ∈ before →
            ¬ occurs (begin_marker e)
                (py "\begin{align} x \end{align} \begin{equation}"))
  ∧ ∀ b, b ∈ extract_numbered_equations
               (py "\begin{align} x \end{align} \begin{equation}") →
         start_line b ≠ 1.
Proof.
  destruct (X17_first_listed_environment
              (py "\begin{align} x \end{align} \begin{equation}")
              (py "\begin{align} x \end{align} \begin{equation}")
              (py "equation") 0) as [Hfirst Hnone]; [reflexivity..|].
  split; [exact Hfirst|]. apply Hnone.
  intros j l _ Hl Hend%search_lit.
  destruct j as [|j]; [|done]. injection Hl as <-.
  vm_compute in Hend. by destruct Hend.
Defined.

(** ** The list of unreferenced equations, and the report *)

Lemma StronglySorted_sublist {A} (R : relation A) (l1 l2 : list A) :
  l1 `sublist_of` l2 → StronglySorted R l2 → StronglySorted R l1.
Proof.
  induction 1 as [|x l1 l2 Hsub IH|x l1 l2 Hsub IH]; [done|..];
    intros [Hs Hall]%StronglySorted_inv.
  - constructor; [by apply IH|].
    rewrite Forall_forall in *. intros y Hy. apply Hall.
    by eapply elem_of_sublist.
  - by apply IH.
Qed.

(** X18: the list [find_unreferenced_equations] returns for a readable file
    pairs each kept equation's start line with its text; the start lines
    increase strictly, so the list is in document order and names no line
    twice; the function reads the file once and changes no file. *)
Theorem X18_unreferenced_equations_ordered (no_such_file : str → str)
    (path content : str) (w : world) :
  files w !! path = Some (Text content) →
  ∃ out w',
    find_unreferenced_equations no_such_file path w = (Return out, w')
    ∧ StronglySorted lt (fst <$> out)
    ∧ (∀ n text, (n, text) ∈ out →
         ∃ b, b ∈ extract_numbered_equations content
              ∧ start_line b = n ∧ equation_content b = text)
    ∧ length out ≤ length (extract_numbered_equations content)
    ∧ files w' = files w
    ∧ new_events w w' = [Read path].
Proof.
  intros Hfile. eexists _, _. split_and!.
  - by apply find_unreferenced_equations_Text.
  - rewrite keep_unreferenced_filter, <- list_fmap_compose.
    apply (StronglySorted_sublist _ _
             (start_line <$> extract_numbered_equations content)).
    + apply fmap_sublist, sublist_filter.
    + pose proof (scan_sorted (Py.split Py.newline content) 0) as Hs.
      by apply StronglySorted_inv in Hs as [Hs _].
  - intros n text. rewrite keep_unreferenced_filter.
    intros (b & [= -> ->] & [_ Hb]%list_elem_of_filter)%list_elem_of_fmap.
    by exists b.
  - rewrite keep_unreferenced_filter, length_fmap. apply length_filter.
  - done.
  - unfold new_events, log. simpl. by rewrite drop_app_length.
Qed.

Lemma X18_witness :
  ∃ out w',
    find_unreferenced_equations errno2 (py "a.tex")
      (one_file (py "a.tex") three_equations) = (Return out, w')
    ∧ StronglySorted lt (fst <$> out)
    ∧ (∀ n text, (n, text) ∈ out →
         ∃ b, b ∈ extract_numbered_equations three_equations
              ∧ start_line b = n ∧ equation_content b = text)
    ∧ length out ≤ length (extract_numbered_equations three_equations)
    ∧ files w' = files (one_file (py "a.tex") three_equations)
    ∧ new_events (one_file (py "a.tex") three_equations) w' = [Read (py "a.tex")].
Proof.
  apply (X18_unreferenced_equations_ordered errno2 (py "a.tex") three_equations
           (one_file (py "a.tex") three_equations)).
  reflexivity.
Defined.

Lemma concat_part {A} (f : A → str) (l : list A) x :
  x ∈ l → occurs (f x) (concat (f <$> l)).
Proof.
  intros (l1 & l2 & ->)%list_elem_of_split.
  rewrite fmap_app, concat_app. simpl.
  by exists (concat (f <$> l1)), (concat (f <$> l2)).
Qed.

Lemma concat_elem_part (parts : list str) part :
  part ∈ parts → occurs part (concat parts).
Proof.
  intros (l1 & l2 & ->)%list_elem_of_split.
  rewrite concat_app. simpl. by exists (concat l1), (concat l2).
Qed.

Lemma occurs_app_l tok a b : occurs tok a → occurs tok (a ++ b).
Proof. intros (x & y & ->). exists x, (y ++ b). by rewrite <- !app_assoc. Qed.

Lemma occurs_app_r tok a b : occurs tok b → occurs tok (a ++ b).
Proof. intros (x & y & ->). exists (a ++ x), y. by rewrite <- !app_assoc. Qed.

(** X19: nothing found is lost on the way to the file.  The report holds
    a line of its own, indented by two blanks, for every label of the list
    it is given, and for every equation of the list a numbered heading
    with its start line followed by its text between two rules of 80
    dashes; the numbering starts at 1 and follows the list. *)
Theorem X19_report_holds_everything (unreferenced_labels : list str)
    (unreferenced_equations : list (nat * str)) :
  (∀ l, l ∈ unreferenced_labels →
        occurs (ln (py "  " ++ l))
               (report unreferenced_labels unreferenced_equations))
  ∧ (∀ idx line_num eq_content,
       unreferenced_equations !! idx = Some (line_num, eq_content) →
       occurs (ln (py "Equation #" ++ Py.of_nat (S idx) ++ py " at line "
                   ++ Py.of_nat line_num ++ py ":")
               ++ ln (Py.times (py "-") 80)
               ++ ln eq_content
               ++ ln (ln (Py.times (py "-") 80)))
              (report unreferenced_labels unreferenced_equations)).
Proof.
  split.
  - intros l Hl. unfold report.
    destruct unreferenced_labels as [|l0 ls] eqn:Hlabels;
      [by apply elem_of_nil in Hl|]. rewrite <- Hlabels in *.
    do 3 apply occurs_app_r. apply occurs_app_l, occurs_app_l.
    by apply (concat_part (λ label, ln (py "  " ++ label))).
  - intros idx line_num eq_content Hidx. unfold report.
    destruct unreferenced_equations as [|e es] eqn:Heqs; [done|].
    rewrite <- Heqs in *.
    do 8 apply occurs_app_r. apply occurs_app_l.
    apply concat_elem_part.
    apply elem_of_lookup_imap. by exists idx, (line_num, eq_content).
Qed.

Lemma X19_witness :
  occurs (ln (py "  " ++ py " a ")) (report_of padded_label).
Proof.
  destruct (X19_report_holds_everything (unreferenced_labels_of padded_label)
              (unreferenced_equations_of padded_label)) as [Hlabels _].
  apply Hlabels. vm_compute. left.
Defined.
